(** * msstore_winrt: the native bridge between a JVM caller and the
      Windows.Services.Store API

    A shallow embedding of [src/native/winrt/msstore_winrt.cpp].

    The C++ file is a thin layer of glue around calls that leave the
    translation unit (the COM runtime, the Store API, the Win32 message
    queue, the COM task allocator).  Each of those calls is modelled as an
    oracle of a [Platform] record: it answers with a value or raises a C++
    exception.  Everything the file itself does (the order of the calls, the
    early returns, the [try]/[catch] blocks, the writes to the thread-local
    [g_lastError], the status tables, the pump loop) is modelled as code of a
    small state-and-exception monad over a [World]. *)

From Stdlib Require Import ZArith String Ascii List Lia.
From stdpp Require Import base option gmap strings list.

Local Open Scope Z_scope.

(** ** Values crossing the C boundary *)

(** A thread of the calling process. *)
Definition thread_id := nat.

(** A non-null pointer value.  A [const char*] is an [option address]:
    [None] is [nullptr]. *)
Definition address := positive.

(** A window handle other than the null handle. *)
Definition HWND := positive.

(** A queued window message; its fields play no role in the bridge. *)
Definition MSG := nat.

(** The byte ['\0']. *)
Definition NUL : ascii := Ascii.zero.

(** The bytes of a C string that starts at a pointer: [mem] is the memory
    from the pointer on, and the string stops at the first ['\0'] (or where
    [mem] ends, that is where the terminator stands). *)
Fixpoint c_str (mem : string) : string :=
  match mem with
  | EmptyString => EmptyString
  | String c rest => if Ascii.eqb c NUL then EmptyString else String c (c_str rest)
  end.

(** [*p == '\0'] for a non-null [p] whose memory is [mem]. *)
Definition deref_is_NUL (mem : string) : bool :=
  match mem with
  | EmptyString => true
  | String c _ => Ascii.eqb c NUL
  end.

(** ** The two status enumerations of Windows.Services.Store

    Both are [enum class]es over [int32_t]: every 32-bit value is a value of
    the type.  A status is modelled by its underlying integer; the named
    enumerators carry the values of the Windows SDK declaration.  The
    theorems below hold for every integer, so no range is imposed. *)

Module StorePurchaseStatus.
Definition t := Z.
Definition Succeeded : t := 0.
Definition AlreadyPurchased : t := 1.
Definition NotPurchased : t := 2.
Definition NetworkError : t := 3.
Definition ServerError : t := 4.
Definition enumerators : list t :=
    [Succeeded; AlreadyPurchased; NotPurchased; NetworkError; ServerError].
End StorePurchaseStatus.

Module StoreRateAndReviewStatus.
Definition t := Z.
Definition Succeeded : t := 0.
Definition CanceledByUser : t := 1.
Definition NetworkError : t := 2.
Definition Error : t := 3.
Definition enumerators : list t :=
    [Succeeded; CanceledByUser; NetworkError; Error].
End StoreRateAndReviewStatus.

(** [map_purchase_status]: the [switch] tests the [case] labels in turn and
    falls to [default]. *)
Definition map_purchase_status (status : StorePurchaseStatus.t) : Z :=
  if status =? StorePurchaseStatus.Succeeded then 0
  else if status =? StorePurchaseStatus.AlreadyPurchased then 1
  else if status =? StorePurchaseStatus.NotPurchased then 2
  else if status =? StorePurchaseStatus.NetworkError then 3
  else if status =? StorePurchaseStatus.ServerError then 4
  else 5.

(** [map_rate_and_review_status]. *)
Definition map_rate_and_review_status (status : StoreRateAndReviewStatus.t) : Z :=
  if status =? StoreRateAndReviewStatus.Succeeded then 0
  else if status =? StoreRateAndReviewStatus.CanceledByUser then 1
  else if status =? StoreRateAndReviewStatus.NetworkError then 2
  else if status =? StoreRateAndReviewStatus.Error then 3
  else 4.

(** ** Exceptions and external calls *)

(** The three kinds of exception the entry points distinguish in their
    [catch] clauses. *)
Inductive exn : Type :=
  | hresult_error (message : string)   (* winrt::hresult_error, [ex.message()] *)
  | std_exception (what : string)      (* std::exception, [ex.what()] *)
  | other_exception.                   (* anything else, caught by [catch (...)] *)

(** What a call that leaves the translation unit answers. *)
Inductive answer (A : Type) : Type :=
  | Value (a : A)
  | Raises (e : exn).
Arguments Value {A} a.
Arguments Raises {A} e.

(** [Windows::Foundation::AsyncStatus]. *)
Inductive AsyncStatus : Type := Started | Completed | Canceled | Error.

#[global] Instance AsyncStatus_eq_dec : EqDecision AsyncStatus.
Proof. solve_decision. Defined.

(** Result objects of the Store API.  A projected object may be null
    ([option]); reading a property is a COM call and may raise. *)
Record StoreAppLicense : Type := {
  ExtendedJsonData : answer string  (* [to_string(license.ExtendedJsonData())] *)
}.

Record StorePurchaseResult : Type := {
  purchase_Status : answer StorePurchaseStatus.t
}.

Record StoreRateAndReviewResult : Type := {
  rate_Status : answer StoreRateAndReviewStatus.t
}.

(** The [IAsyncOperation<StoreRateAndReviewResult>] the rating request hands
    back: what its [k]-th [Status()] call reports and what [GetResults()]
    answers.  [Status()] is taken to answer: an operation whose [Status()]
    raises is not modelled. *)
Record RateAndReviewOperation : Type := {
  op_Status : nat -> AsyncStatus;
  op_GetResults : answer (option StoreRateAndReviewResult)
}.

(** The environment of one call of an entry point. *)
Record Platform : Type := {
  (** [init_apartment(apartment_type::single_threaded)] *)
  init_apartment : answer unit;
  (** [StoreContext::GetDefault()] *)
  StoreContext_GetDefault : answer unit;
  (** [::GetForegroundWindow()]; [None] is the null handle *)
  GetForegroundWindow : option HWND;
  (** [context.as<IInitializeWithWindow>()] *)
  as_IInitializeWithWindow : answer unit;
  (** [context.GetAppLicenseAsync().get()] *)
  GetAppLicenseAsync_get : answer (option StoreAppLicense);
  (** [context.RequestPurchaseAsync(to_hstring(id)).get()] *)
  RequestPurchaseAsync_get : string -> answer (option StorePurchaseResult);
  (** [context.RequestRateAndReviewAppAsync()] *)
  RequestRateAndReviewAppAsync : answer RateAndReviewOperation;
  (** the messages successive [::PeekMessageW] calls find on the calling
      thread's queue during the [k]-th turn of the pump loop, before
      [PeekMessageW] answers [FALSE] *)
  PeekMessageW : nat -> list MSG;
  (** whether [::CoTaskMemAlloc] finds memory *)
  CoTaskMemAlloc_succeeds : bool
}.

(** ** The state the bridge works on *)

(** Calls that leave the translation unit, in the order they are made.  The
    trace is ghost state: the C++ code keeps no such log, the model does so
    that the order and the number of the calls can be stated. *)
Inductive event : Type :=
  | EvInitApartment
  | EvGetDefault
  | EvGetForegroundWindow
  | EvAsInitializeWithWindow
  | EvInitialize (owner : HWND)
  | EvGetAppLicenseAsync
  | EvExtendedJsonData
  | EvRequestPurchaseAsync (storeId : string)
  | EvPurchaseStatus
  | EvRequestRateAndReviewAppAsync
  | EvAsyncStatus (k : nat) (s : AsyncStatus)
  | EvPeekMessage (found : option MSG)
  | EvTranslateMessage (m : MSG)
  | EvDispatchMessage (m : MSG)
  | EvMsgWaitForMultipleObjectsEx (timeout_ms : Z)
  | EvGetResults
  | EvRateStatus
  | EvCoTaskMemAlloc (size : nat) (result : option address)
  | EvCoTaskMemFree (p : address).

#[global] Instance event_eq_dec : EqDecision event.
Proof. solve_decision. Defined.

(** The process as the bridge sees it. *)
Record World : Type := mkWorld {
  (** [static thread_local std::string g_lastError]: one string per thread;
      a thread without an entry has the default-constructed, empty string *)
  g_lastError : gmap thread_id string;
  (** the live blocks of the COM task allocator and the bytes they hold *)
  task_heap : gmap address string;
  (** the calls made so far, oldest first *)
  trace : list event
}.

(** What [g_lastError] holds on thread [t]. *)
Definition last_error (w : World) (t : thread_id) : string :=
  default EmptyString (g_lastError w !! t).

(** How a piece of C++ code ends: it returns a value, an exception leaves
    it, or (for the pump loop only) the model ran out of fuel before the
    loop ended. *)
Inductive completion (A : Type) : Type :=
  | Returns (a : A)
  | Throws (e : exn)
  | OutOfFuel.
Arguments Returns {A} a.
Arguments Throws {A} e.
Arguments OutOfFuel {A}.

Definition M (A : Type) : Type := World -> completion A * World.

Definition ret {A} (a : A) : M A := fun w => (Returns a, w).

Definition throw {A} (e : exn) : M A := fun w => (Throws e, w).

Definition bind {A B} (c : M A) (k : A -> M B) : M B :=
  fun w =>
    match c w with
    | (Returns a, w') => k a w'
    | (Throws e, w') => (Throws e, w')
    | (OutOfFuel, w') => (OutOfFuel, w')
    end.

Declare Scope bridge_scope.
Delimit Scope bridge_scope with bridge.
Notation "'let!' x ':=' c 'in' k" := (bind c (fun x => k))
  (at level 10, x name, c at level 100, k at level 200) : bridge_scope.
Notation "c '>>' k" := (bind c (fun _ => k))
  (at level 100, k at level 200, right associativity) : bridge_scope.
Local Open Scope bridge_scope.

(** [try { body } catch (e) { handler e }]. *)
Definition try_catch {A} (body : M A) (handler : exn -> M A) : M A :=
  fun w =>
    match body w with
    | (Throws e, w') => handler e w'
    | other => other
    end.

(** [w] with the calls [evs] appended to its trace. *)
Definition logged (evs : list event) (w : World) : World :=
  mkWorld (g_lastError w) (task_heap w) (trace w ++ evs).

(** Records a call in the trace. *)
Definition emit (e : event) : M unit :=
  fun w => (Returns tt, logged [e] w).

(** Makes an external call: logs it and passes its answer on. *)
Definition call {A} (e : event) (a : answer A) : M A :=
  emit e >>
  match a with
  | Value v => ret v
  | Raises x => throw x
  end.

(** [g_lastError = message;] on thread [t], for a string that finds the
    memory it needs; [OutOfMemory.assign_last_error] below is the
    assignment that can throw. *)
Definition set_last_error (t : thread_id) (message : string) : M unit :=
  fun w => (Returns tt, mkWorld (<[t := message]> (g_lastError w)) (task_heap w) (trace w)).

(** [g_lastError.clear();] on thread [t]. *)
Definition clear_last_error (t : thread_id) : M unit :=
  set_last_error t EmptyString.

(** Reads [g_lastError] on thread [t]. *)
Definition get_last_error (t : thread_id) : M string :=
  fun w => (Returns (last_error w t), w).

(** ** The helpers of the translation unit *)

(** [dup_string]: asks the COM task allocator for [value.size() + 1] bytes;
    answers [nullptr] when the allocator does, and otherwise copies the
    string and its terminator into the block.  The block's address is one
    the allocator does not have in use. *)
Definition dup_string (P : Platform) (value : string) : M (option address) :=
  fun w =>
    let size := S (String.length value) in
    if CoTaskMemAlloc_succeeds P then
      let buffer := fresh (dom (task_heap w)) in
      (Returns (Some buffer),
       mkWorld (g_lastError w)
               (<[buffer := (value ++ String NUL EmptyString)%string]> (task_heap w))
               (trace w ++ [EvCoTaskMemAlloc size (Some buffer)]))
    else
      (Returns None, logged [EvCoTaskMemAlloc size None] w).

(** [initialize_store_ui_owner]: [Initialize]'s HRESULT is dropped by the
    source, so the call cannot fail here. *)
Definition initialize_store_ui_owner (P : Platform) (t : thread_id) : M bool :=
  emit EvGetForegroundWindow >>
  match GetForegroundWindow P with
  | None =>
      set_last_error t "No foreground window handle available for Store UI." >>
      ret false
  | Some ownerWindow =>
      call EvAsInitializeWithWindow (as_IInitializeWithWindow P) >>
      emit (EvInitialize ownerWindow) >>
      ret true
  end.

(** The inner [while (::PeekMessageW(...))] loop over the messages the queue
    holds in this turn. *)
Fixpoint pump_messages (queue : list MSG) : M unit :=
  match queue with
  | [] => emit (EvPeekMessage None)
  | message :: rest =>
      emit (EvPeekMessage (Some message)) >>
      emit (EvTranslateMessage message) >>
      emit (EvDispatchMessage message) >>
      pump_messages rest
  end.

(** [operation.GetResults()]. *)
Definition GetResults (operation : RateAndReviewOperation)
  : M (option StoreRateAndReviewResult) :=
  call EvGetResults (op_GetResults operation).

(** [wait_for_rate_and_review_result], from its [k]-th test of
    [operation.Status()] on.  The C++ loop has no bound; [fuel] bounds the
    number of turns the model follows. *)
Fixpoint wait_for_rate_and_review_result_from
    (P : Platform) (operation : RateAndReviewOperation) (fuel k : nat)
  : M (option StoreRateAndReviewResult) :=
  emit (EvAsyncStatus k (op_Status operation k)) >>
  match op_Status operation k with
  | Started =>
      match fuel with
      | O => fun w => (OutOfFuel, w)
      | S fuel' =>
          pump_messages (PeekMessageW P k) >>
          emit (EvMsgWaitForMultipleObjectsEx 50) >>
          wait_for_rate_and_review_result_from P operation fuel' (S k)
      end
  | _ => GetResults operation
  end.

Definition wait_for_rate_and_review_result
    (P : Platform) (fuel : nat) (operation : RateAndReviewOperation)
  : M (option StoreRateAndReviewResult) :=
  wait_for_rate_and_review_result_from P operation fuel 0.

(** ** The exported entry points *)

(** The text a [catch] clause stores for the exception it caught. *)
Definition caught_message (e : exn) : string :=
  match e with
  | hresult_error message => message
  | std_exception what => what
  | other_exception => "Unknown native error."
  end.

(** The [try] block of [msstore_winrt_get_license_json]. *)
Definition get_license_json_try (P : Platform) (t : thread_id) : M (option address) :=
  call EvInitApartment (init_apartment P) >>
  let! context := call EvGetDefault (StoreContext_GetDefault P) in
  let! license := call EvGetAppLicenseAsync (GetAppLicenseAsync_get P) in
  match license with
  | None =>
      set_last_error t "StoreAppLicense is null." >>
      ret None
  | Some license =>
      let! json := call EvExtendedJsonData (ExtendedJsonData license) in
      clear_last_error t >>
      dup_string P json
  end.

(** [msstore_winrt_get_license_json]. *)
Definition msstore_winrt_get_license_json (P : Platform) (t : thread_id)
  : M (option address) :=
  try_catch (get_license_json_try P t)
            (fun e => set_last_error t (caught_message e) >> ret None).

(** [msstore_winrt_get_last_error]. *)
Definition msstore_winrt_get_last_error (P : Platform) (t : thread_id)
  : M (option address) :=
  let! message := get_last_error t in
  dup_string P message.

(** The [try] block of [msstore_winrt_request_purchase].  [storeId] is
    [None] for [nullptr] and otherwise the memory the pointer points to. *)
Definition request_purchase_try (P : Platform) (t : thread_id) (storeId : option string)
  : M Z :=
  match storeId with
  | None =>
      set_last_error t "Store ID is null or empty." >>
      ret (-1)
  | Some mem =>
      if deref_is_NUL mem then
        set_last_error t "Store ID is null or empty." >>
        ret (-1)
      else
        call EvInitApartment (init_apartment P) >>
        let! context := call EvGetDefault (StoreContext_GetDefault P) in
        let! bound := initialize_store_ui_owner P t in
        if negb bound then ret (-1)
        else
          let! result := call (EvRequestPurchaseAsync (c_str mem))
                              (RequestPurchaseAsync_get P (c_str mem)) in
          match result with
          | None =>
              set_last_error t "StorePurchaseResult is null." >>
              ret (-1)
          | Some result =>
              clear_last_error t >>
              let! status := call EvPurchaseStatus (purchase_Status result) in
              ret (map_purchase_status status)
          end
  end.

(** [msstore_winrt_request_purchase]. *)
Definition msstore_winrt_request_purchase
    (P : Platform) (t : thread_id) (storeId : option string) : M Z :=
  try_catch (request_purchase_try P t storeId)
            (fun e => set_last_error t (caught_message e) >> ret (-1)).

(** The [try] block of [msstore_winrt_request_rate_and_review]. *)
Definition request_rate_and_review_try (P : Platform) (fuel : nat) (t : thread_id)
  : M Z :=
  call EvInitApartment (init_apartment P) >>
  let! context := call EvGetDefault (StoreContext_GetDefault P) in
  let! bound := initialize_store_ui_owner P t in
  if negb bound then ret (-1)
  else
    let! operation := call EvRequestRateAndReviewAppAsync
                           (RequestRateAndReviewAppAsync P) in
    let! result := wait_for_rate_and_review_result P fuel operation in
    match result with
    | None =>
        set_last_error t "StoreRateAndReviewResult is null." >>
        ret (-1)
    | Some result =>
        clear_last_error t >>
        let! status := call EvRateStatus (rate_Status result) in
        ret (map_rate_and_review_status status)
    end.

(** [msstore_winrt_request_rate_and_review]. *)
Definition msstore_winrt_request_rate_and_review
    (P : Platform) (fuel : nat) (t : thread_id) : M Z :=
  try_catch (request_rate_and_review_try P fuel t)
            (fun e => set_last_error t (caught_message e) >> ret (-1)).

(** [msstore_winrt_free]. *)
Definition msstore_winrt_free (ptr : option address) : M unit :=
  match ptr with
  | None => ret tt
  | Some p =>
      fun w =>
        (Returns tt,
         mkWorld (g_lastError w) (delete p (task_heap w))
                 (trace w ++ [EvCoTaskMemFree p]))
  end.

(** ** Vocabulary of the properties *)

(** The calls of the inner [PeekMessageW] loop over [queue]. *)
Fixpoint pump_events (queue : list MSG) : list event :=
  match queue with
  | [] => [EvPeekMessage None]
  | m :: rest =>
      EvPeekMessage (Some m) :: EvTranslateMessage m :: EvDispatchMessage m
        :: pump_events rest
  end.

(** The calls of one turn of the outer loop, the [k]-th: the test of the
    status that finds the operation running, the messages, the wait. *)
Definition turn_events (P : Platform) (k : nat) : list event :=
  EvAsyncStatus k Started
    :: pump_events (PeekMessageW P k) ++ [EvMsgWaitForMultipleObjectsEx 50].

(** The calls of [n] turns in a row, from the [k]-th on. *)
Fixpoint turns_events (P : Platform) (n k : nat) : list event :=
  match n with
  | O => []
  | S n' => turn_events P k ++ turns_events P n' (S k)
  end.

(** How the pump loop ends when it starts at the [k]-th status test with
    [fuel] turns to spend, and the calls it makes: both are decided by the
    operation and the queue alone. *)
Fixpoint wait_completion (operation : RateAndReviewOperation) (fuel k : nat)
  : completion (option StoreRateAndReviewResult) :=
  match op_Status operation k with
  | Started =>
      match fuel with
      | O => OutOfFuel
      | S fuel' => wait_completion operation fuel' (S k)
      end
  | _ =>
      match op_GetResults operation with
      | Value r => Returns r
      | Raises e => Throws e
      end
  end.

Fixpoint wait_calls (P : Platform) (operation : RateAndReviewOperation)
    (fuel k : nat) : list event :=
  match op_Status operation k with
  | Started =>
      match fuel with
      | O => [EvAsyncStatus k Started]
      | S fuel' => turn_events P k ++ wait_calls P operation fuel' (S k)
      end
  | s => [EvAsyncStatus k s; EvGetResults]
  end.



(** The messages a stretch of the trace dispatched, in order. *)
Definition dispatched (evs : list event) : list MSG :=
  omap (fun e => match e with EvDispatchMessage m => Some m | _ => None end) evs.

(** How often [GetResults] is called in a stretch of the trace. *)
Definition GetResults_calls (evs : list event) : nat :=
  length (filter (fun e => e = EvGetResults) evs).

(** The texts the entry points store for the failures they detect
    themselves. *)
Definition fixed_messages : list string :=
  [ "StoreAppLicense is null."; "Store ID is null or empty.";
    "No foreground window handle available for Store UI.";
    "StorePurchaseResult is null."; "StoreRateAndReviewResult is null." ]%string.

(** After a failed call that started in [w] and ended in [w'], thread [t]'s
    slot holds the message of the failure: one of the fixed texts, or the
    text of the exception that left the [try] block. *)
Definition failure_recorded {A} (try_block : M A) (t : thread_id) (w w' : World)
  : Prop :=
  last_error w' t ∈ fixed_messages \/
  exists e w0, try_block w = (Throws e, w0) /\ last_error w' t = caught_message e.

(** A purchase flow that runs to its end with the platform status [s]. *)
Definition purchase_flow_completes
    (P : Platform) (storeId : option string) (s : StorePurchaseStatus.t) : Prop :=
  exists mem owner result,
    storeId = Some mem /\ deref_is_NUL mem = false /\
    init_apartment P = Value tt /\ StoreContext_GetDefault P = Value tt /\
    GetForegroundWindow P = Some owner /\ as_IInitializeWithWindow P = Value tt /\
    RequestPurchaseAsync_get P (c_str mem) = Value (Some result) /\
    purchase_Status result = Value s.

(** A rating flow that runs to its end with the platform status [s]: the
    operation is running at its first [n] status tests and over at the next. *)
Definition rating_flow_completes
    (P : Platform) (n : nat) (s : StoreRateAndReviewStatus.t) : Prop :=
  exists owner operation result,
    init_apartment P = Value tt /\ StoreContext_GetDefault P = Value tt /\
    GetForegroundWindow P = Some owner /\ as_IInitializeWithWindow P = Value tt /\
    RequestRateAndReviewAppAsync P = Value operation /\
    (forall k, (k < n)%nat -> op_Status operation k = Started) /\
    op_Status operation n <> Started /\
    op_GetResults operation = Value (Some result) /\
    rate_Status result = Value s.

(** ** Calls from several threads *)

(** One call of an exported function. *)
Inductive entry_point : Type :=
  | get_license_json
  | get_last_error_text
  | request_purchase (storeId : option string)
  | request_rate_and_review (fuel : nat)
  | free_buffer (ptr : option address).

(** What the caller gets back. *)
Inductive returned : Type :=
  | Buffer (p : option address)
  | Status (code : Z)
  | Nothing.

(** A call: the thread that makes it, the answers the platform gives during
    it, and the function called. *)
Record invocation : Type := {
  caller : thread_id;
  platform : Platform;
  entry : entry_point
}.

Definition invoke (i : invocation) : M returned :=
  match entry i with
  | get_license_json =>
      let! p := msstore_winrt_get_license_json (platform i) (caller i) in ret (Buffer p)
  | get_last_error_text =>
      let! p := msstore_winrt_get_last_error (platform i) (caller i) in ret (Buffer p)
  | request_purchase storeId =>
      let! c := msstore_winrt_request_purchase (platform i) (caller i) storeId in
      ret (Status c)
  | request_rate_and_review fuel =>
      let! c := msstore_winrt_request_rate_and_review (platform i) fuel (caller i) in
      ret (Status c)
  | free_buffer ptr =>
      msstore_winrt_free ptr >> ret Nothing
  end.

(** The calls of a schedule one after the other: an interleaving, at the
    grain of whole calls, of what the threads do. *)
Fixpoint run_schedule (s : list invocation) (w : World) : World :=
  match s with
  | [] => w
  | i :: rest => run_schedule rest (snd (invoke i w))
  end.

(** The calls of thread [t] in a schedule. *)
Definition calls_of (t : thread_id) (s : list invocation) : list invocation :=
  filter (fun i => caller i = t) s.

(** ** Sample inputs *)

Definition new_process : World := mkWorld ∅ ∅ [].

(** A thread-0 slot that holds the text of an earlier failure. *)
Definition after_failure : World :=
  mkWorld {[ 0%nat := "StoreAppLicense is null."%string ]} ∅ [].

(** A rating operation that is running at its first two status tests. *)
Definition slow_operation : RateAndReviewOperation := {|
  op_Status := fun k => if (k <? 2)%nat then Started else Completed;
  op_GetResults :=
    Value (Some {| rate_Status := Value StoreRateAndReviewStatus.CanceledByUser |})
|}.

(** A platform on which everything works, but for the foreground window and
    the allocator, which are as given. *)
Definition sample_platform (window : option HWND) (memory : bool) : Platform := {|
  init_apartment := Value tt;
  StoreContext_GetDefault := Value tt;
  GetForegroundWindow := window;
  as_IInitializeWithWindow := Value tt;
  GetAppLicenseAsync_get :=
    Value (Some {| ExtendedJsonData := Value "{}"%string |});
  RequestPurchaseAsync_get := fun _ =>
    Value (Some {| purchase_Status := Value StorePurchaseStatus.AlreadyPurchased |});
  RequestRateAndReviewAppAsync := Value slow_operation;
  PeekMessageW := fun k => [(10 * k)%nat; (10 * k + 1)%nat];
  CoTaskMemAlloc_succeeds := memory
|}.

Definition desktop : Platform := sample_platform (Some 1%positive) true.
Definition headless : Platform := sample_platform None true.
Definition out_of_memory : Platform := sample_platform (Some 1%positive) false.

(** A platform whose store is unreachable: fetching the context raises. *)
Definition store_down (e : exn) : Platform := {|
  init_apartment := Value tt;
  StoreContext_GetDefault := Raises e;
  GetForegroundWindow := Some 1%positive;
  as_IInitializeWithWindow := Value tt;
  GetAppLicenseAsync_get := Raises e;
  RequestPurchaseAsync_get := fun _ => Raises e;
  RequestRateAndReviewAppAsync := Raises e;
  PeekMessageW := fun _ => [];
  CoTaskMemAlloc_succeeds := true
|}.

(** Two threads whose failures overlap: thread 1 is refused a purchase for
    want of a store id, thread 2 fails to fetch the license, thread 1 reads
    its error, thread 2 reads its own. *)
Definition overlapping_failures : list invocation :=
  [ {| caller := 1%nat; platform := desktop; entry := request_purchase None |};
    {| caller := 2%nat; platform := store_down (std_exception "no store");
       entry := get_license_json |};
    {| caller := 1%nat; platform := desktop; entry := get_last_error_text |};
    {| caller := 2%nat; platform := desktop; entry := get_last_error_text |} ].

(** [p] was handed out by the COM task allocator during the run from [w] to
    [w']: it was not in use in [w], is in use in [w'], and the last call of
    the run is the [CoTaskMemAlloc] that answered [p]. *)
Definition task_allocated (p : address) (w w' : World) : Prop :=
  task_heap w !! p = None /\
  is_Some (task_heap w' !! p) /\
  exists size, last (trace w') = Some (EvCoTaskMemAlloc size (Some p)).

(** ** Vocabulary of the further properties *)

(** Whether a string holds the byte ['\0']. *)
Fixpoint contains_NUL (s : string) : bool :=
  match s with
  | EmptyString => false
  | String c rest => Ascii.eqb c NUL || contains_NUL rest
  end.

(** A block that ends in the terminator. *)
Definition terminated (block : string) : Prop :=
  exists body, block = (body ++ String NUL EmptyString)%string.

(** Every live block of the COM task allocator ends in the terminator. *)
Definition heap_terminated (w : World) : Prop :=
  forall (p : address) (block : string),
    task_heap w !! p = Some block -> terminated block.

(** The calls made between the world [w] and a later world [w']. *)
Definition calls_during (w w' : World) : list event :=
  drop (length (trace w)) (trace w').

(** The calls that ask the store for something: the license, a purchase, a
    rating. *)
Definition is_request (e : event) : bool :=
  match e with
  | EvGetAppLicenseAsync | EvRequestPurchaseAsync _
  | EvRequestRateAndReviewAppAsync => true
  | _ => false
  end.

(** The messages a stretch of the trace took from the queue, and those it
    translated, in order. *)
Definition peeked (evs : list event) : list MSG :=
  omap (fun e => match e with EvPeekMessage (Some m) => Some m | _ => None end) evs.

Definition translated (evs : list event) : list MSG :=
  omap (fun e => match e with EvTranslateMessage m => Some m | _ => None end) evs.

(** The calls every UI-bearing entry point makes before its request, when
    the foreground window is [owner]. *)
Definition owner_binding (owner : HWND) : list event :=
  [ EvInitApartment; EvGetDefault; EvGetForegroundWindow;
    EvAsInitializeWithWindow; EvInitialize owner ].

(** A platform on which everything works and the rating request hands back
    [operation]. *)
Definition rating_platform (operation : RateAndReviewOperation) : Platform := {|
  init_apartment := Value tt;
  StoreContext_GetDefault := Value tt;
  GetForegroundWindow := Some 1%positive;
  as_IInitializeWithWindow := Value tt;
  GetAppLicenseAsync_get :=
    Value (Some {| ExtendedJsonData := Value "{}"%string |});
  RequestPurchaseAsync_get := fun _ =>
    Value (Some {| purchase_Status := Value StorePurchaseStatus.Succeeded |});
  RequestRateAndReviewAppAsync := Value operation;
  PeekMessageW := fun k => [k];
  CoTaskMemAlloc_succeeds := true
|}.

(** A rating operation that never leaves the running state. *)
Definition stuck_operation : RateAndReviewOperation := {|
  op_Status := fun _ => Started;
  op_GetResults := Value None
|}.



(** ** The entry points when [std::string] runs out of memory

    The definitions above take every write of [g_lastError] to succeed.
    In the source [g_lastError = text] and [to_string(ex.message())] build a
    [std::string], which asks the C++ heap for memory when the text does not
    fit the string's own buffer and throws [std::bad_alloc] when there is
    none.  The module models the license and the purchase entry point with
    that in: the same calls in the same order, and every assignment of
    [g_lastError] one that can throw.  [g_lastError.clear()] cannot. *)

Module OutOfMemory.

(** The C++ heap as [std::string] sees it: whether there is memory to hold
    a given text, and what [std::bad_alloc::what()] answers (the text is
    the implementation's). *)
Record Heap : Type := {
  string_memory : string -> bool;
  bad_alloc_what : string
}.

(** [std::bad_alloc], a [std::exception]. *)
Definition bad_alloc (H : Heap) : exn := std_exception (bad_alloc_what H).

(** [g_lastError = text;] on thread [t]. *)
Definition assign_last_error (H : Heap) (t : thread_id) (text : string) : M unit :=
  if string_memory H text then set_last_error t text else throw (bad_alloc H).

(** [initialize_store_ui_owner]. *)
Definition initialize_store_ui_owner (H : Heap) (P : Platform) (t : thread_id)
  : M bool :=
  emit EvGetForegroundWindow >>
  match GetForegroundWindow P with
  | None =>
      assign_last_error H t "No foreground window handle available for Store UI." >>
      ret false
  | Some ownerWindow =>
      call EvAsInitializeWithWindow (as_IInitializeWithWindow P) >>
      emit (EvInitialize ownerWindow) >>
      ret true
  end.

(** The three [catch] clauses of an entry point and the [return] after
    them.  An exception that leaves a clause leaves the function. *)
Definition catch_clauses {A} (H : Heap) (t : thread_id) (sentinel : A) (e : exn)
  : M A :=
  assign_last_error H t (caught_message e) >> ret sentinel.

(** The [try] block of [msstore_winrt_get_license_json]. *)
Definition get_license_json_try (H : Heap) (P : Platform) (t : thread_id)
  : M (option address) :=
  call EvInitApartment (init_apartment P) >>
  let! context := call EvGetDefault (StoreContext_GetDefault P) in
  let! license := call EvGetAppLicenseAsync (GetAppLicenseAsync_get P) in
  match license with
  | None =>
      assign_last_error H t "StoreAppLicense is null." >>
      ret None
  | Some license =>
      let! json := call EvExtendedJsonData (ExtendedJsonData license) in
      clear_last_error t >>
      dup_string P json
  end.

(** [msstore_winrt_get_license_json]. *)
Definition msstore_winrt_get_license_json (H : Heap) (P : Platform) (t : thread_id)
  : M (option address) :=
  try_catch (get_license_json_try H P t) (catch_clauses H t None).

(** The [try] block of [msstore_winrt_request_purchase]. *)
Definition request_purchase_try
    (H : Heap) (P : Platform) (t : thread_id) (storeId : option string) : M Z :=
  match storeId with
  | None =>
      assign_last_error H t "Store ID is null or empty." >>
      ret (-1)
  | Some mem =>
      if deref_is_NUL mem then
        assign_last_error H t "Store ID is null or empty." >>
        ret (-1)
      else
        call EvInitApartment (init_apartment P) >>
        let! context := call EvGetDefault (StoreContext_GetDefault P) in
        let! bound := initialize_store_ui_owner H P t in
        if negb bound then ret (-1)
        else
          let! result := call (EvRequestPurchaseAsync (c_str mem))
                              (RequestPurchaseAsync_get P (c_str mem)) in
          match result with
          | None =>
              assign_last_error H t "StorePurchaseResult is null." >>
              ret (-1)
          | Some result =>
              clear_last_error t >>
              let! status := call EvPurchaseStatus (purchase_Status result) in
              ret (map_purchase_status status)
          end
  end.

(** [msstore_winrt_request_purchase]. *)
Definition msstore_winrt_request_purchase
    (H : Heap) (P : Platform) (t : thread_id) (storeId : option string) : M Z :=
  try_catch (request_purchase_try H P t storeId) (catch_clauses H t (-1)).

End OutOfMemory.

(** The platform raises [e] at one of the calls of the license fetch, the
    calls before it having answered. *)
Definition license_call_raises (P : Platform) (e : exn) : Prop :=
  init_apartment P = Raises e \/
  (init_apartment P = Value tt /\ StoreContext_GetDefault P = Raises e) \/
  (init_apartment P = Value tt /\ StoreContext_GetDefault P = Value tt /\
   GetAppLicenseAsync_get P = Raises e) \/
  (exists license,
     init_apartment P = Value tt /\ StoreContext_GetDefault P = Value tt /\
     GetAppLicenseAsync_get P = Value (Some license) /\
     ExtendedJsonData license = Raises e).

(** The platform raises [e] at one of the calls of a purchase of the store
    id [id], the calls before it having answered. *)
Definition purchase_call_raises (P : Platform) (id : string) (e : exn) : Prop :=
  init_apartment P = Raises e \/
  (init_apartment P = Value tt /\ StoreContext_GetDefault P = Raises e) \/
  (exists owner,
     init_apartment P = Value tt /\ StoreContext_GetDefault P = Value tt /\
     GetForegroundWindow P = Some owner /\
     (as_IInitializeWithWindow P = Raises e \/
      (as_IInitializeWithWindow P = Value tt /\
       (RequestPurchaseAsync_get P id = Raises e \/
        exists result,
          RequestPurchaseAsync_get P id = Value (Some result) /\
          purchase_Status result = Raises e)))).

(** A heap that is exhausted: a text finds room only in the string's own
    buffer of 15 bytes. *)
Definition exhausted : OutOfMemory.Heap := {|
  OutOfMemory.string_memory := fun text => (String.length text <=? 15)%nat;
  OutOfMemory.bad_alloc_what := "bad allocation"
|}.

(** A heap with memory for every text. *)
Definition plentiful : OutOfMemory.Heap := {|
  OutOfMemory.string_memory := fun _ => true;
  OutOfMemory.bad_alloc_what := "bad allocation"
|}.

(** ** What a thread observes *)

(** What a caller sees of a call: the status, or for a buffer the bytes the
    returned block holds when the call returns (not its address, which the
    allocator shares between the threads). *)
Inductive observation : Type :=
  | SawBuffer (content : option string)
  | SawNull
  | SawStatus (code : Z)
  | SawNothing
  | SawException (e : exn)
  | SawNoReturn.

Definition observe (run : completion returned * World) : observation :=
  match fst run with
  | Returns (Buffer (Some p)) => SawBuffer (task_heap (snd run) !! p)
  | Returns (Buffer None) => SawNull
  | Returns (Status code) => SawStatus code
  | Returns Nothing => SawNothing
  | Throws e => SawException e
  | OutOfFuel => SawNoReturn
  end.

(** What thread [t] observes, call by call, in a schedule. *)
Fixpoint observations (t : thread_id) (s : list invocation) (w : World)
  : list observation :=
  match s with
  | [] => []
  | i :: rest =>
      if decide (caller i = t)
      then observe (invoke i w) :: observations t rest (snd (invoke i w))
      else observations t rest (snd (invoke i w))
  end.

(** * Properties *)

(** ** Strings and status tables *)

Lemma c_str_empty_iff (mem : string) :
  c_str mem = EmptyString <-> deref_is_NUL mem = true.
Proof.
  destruct mem as [|c rest]; simpl; [tauto|].
  destruct (Ascii.eqb c NUL); split; intros H; try reflexivity; discriminate H.
Qed.

Lemma map_purchase_status_range (status : Z) :
  0 <= map_purchase_status status <= 5.
Proof.
  unfold map_purchase_status.
  repeat match goal with |- context [if ?b then _ else _] => destruct b end; lia.
Qed.

Lemma map_rate_and_review_status_range (status : Z) :
  0 <= map_rate_and_review_status status <= 4.
Proof.
  unfold map_rate_and_review_status.
  repeat match goal with |- context [if ?b then _ else _] => destruct b end; lia.
Qed.

Lemma map_purchase_status_default (status : Z) :
  status ∉ StorePurchaseStatus.enumerators -> map_purchase_status status = 5.
Proof.
  unfold StorePurchaseStatus.enumerators, map_purchase_status. intros H.
  repeat match goal with
  | |- context [?a =? ?b] =>
      destruct (Z.eqb_spec a b) as [E|_]; [exfalso; apply H; rewrite E; set_solver|]
  end.
  reflexivity.
Qed.

Lemma map_rate_and_review_status_default (status : Z) :
  status ∉ StoreRateAndReviewStatus.enumerators ->
  map_rate_and_review_status status = 4.
Proof.
  unfold StoreRateAndReviewStatus.enumerators, map_rate_and_review_status. intros H.
  repeat match goal with
  | |- context [?a =? ?b] =>
      destruct (Z.eqb_spec a b) as [E|_]; [exfalso; apply H; rewrite E; set_solver|]
  end.
  reflexivity.
Qed.

(** ** Running the monad *)

Lemma logged_logged (a b : list event) (w : World) :
  logged a (logged b w) = logged (b ++ a) w.
Proof. unfold logged; simpl. rewrite app_assoc. reflexivity. Qed.

Lemma bind_emit {B} (e : event) (k : unit -> M B) (w : World) :
  bind (emit e) k w = k tt (logged [e] w).
Proof. reflexivity. Qed.

Lemma call_Value {A B} (e : event) (v : A) (k : A -> M B) (w : World) :
  bind (call e (Value v)) k w = k v (logged [e] w).
Proof. reflexivity. Qed.

Lemma call_Raises {A B} (e : event) (x : exn) (k : A -> M B) (w : World) :
  bind (call e (Raises x)) k w = (Throws x, logged [e] w).
Proof. reflexivity. Qed.

(** ** The pump loop *)

Lemma pump_messages_run (queue : list MSG) (w : World) :
  pump_messages queue w = (Returns tt, logged (pump_events queue) w).
Proof.
  revert w. induction queue as [|m rest IH]; intros w; simpl; [reflexivity|].
  rewrite !bind_emit, IH, !logged_logged. reflexivity.
Qed.

Lemma wait_from_done (P : Platform) (operation : RateAndReviewOperation)
    (fuel k : nat) (w : World) :
  op_Status operation k <> Started ->
  wait_for_rate_and_review_result_from P operation fuel k w
  = GetResults operation (logged [EvAsyncStatus k (op_Status operation k)] w).
Proof.
  intros H. destruct fuel; simpl; rewrite bind_emit;
    destruct (op_Status operation k); congruence.
Qed.

Lemma wait_from_turn (P : Platform) (operation : RateAndReviewOperation)
    (fuel k : nat) (w : World) :
  op_Status operation k = Started ->
  wait_for_rate_and_review_result_from P operation (S fuel) k w
  = wait_for_rate_and_review_result_from P operation fuel (S k)
      (logged (turn_events P k) w).
Proof.
  intros H. simpl. rewrite bind_emit, H. unfold bind at 1.
  rewrite pump_messages_run, bind_emit, !logged_logged. reflexivity.
Qed.

Lemma wait_from_starved (P : Platform) (operation : RateAndReviewOperation)
    (k : nat) (w : World) :
  op_Status operation k = Started ->
  wait_for_rate_and_review_result_from P operation 0 k w
  = (OutOfFuel, logged [EvAsyncStatus k Started] w).
Proof. intros H. simpl. rewrite bind_emit, H. reflexivity. Qed.

(** [n] turns in a row while the operation is running. *)
Lemma wait_from_turns (P : Platform) (operation : RateAndReviewOperation)
    (n : nat) : forall (fuel k : nat) (w : World),
  (forall j, (j < n)%nat -> op_Status operation (k + j) = Started) ->
  wait_for_rate_and_review_result_from P operation (n + fuel) k w
  = wait_for_rate_and_review_result_from P operation fuel (k + n)
      (logged (turns_events P n k) w).
Proof.
  induction n as [|n IH]; intros fuel k w H.
  - simpl. rewrite Nat.add_0_r. unfold logged; rewrite app_nil_r. destruct w; reflexivity.
  - change (S n + fuel)%nat with (S (n + fuel))%nat.
    rewrite wait_from_turn by (specialize (H 0%nat); rewrite Nat.add_0_r in H; apply H; lia).
    rewrite IH.
    + rewrite logged_logged. replace (S k + n)%nat with (k + S n)%nat by lia. reflexivity.
    + intros j Hj. replace (S k + j)%nat with (k + S j)%nat by lia. apply H. lia.
Qed.

(** Whatever the operation does, the loop touches neither the error slots
    nor the allocator; how it ends and what it calls do not depend on the
    world it starts in. *)
Lemma wait_from_run (P : Platform) (operation : RateAndReviewOperation)
    (fuel : nat) : forall (k : nat) (w : World),
  wait_for_rate_and_review_result_from P operation fuel k w
  = (wait_completion operation fuel k, logged (wait_calls P operation fuel k) w).
Proof.
  assert (Done : forall fuel k w, op_Status operation k <> Started ->
    wait_for_rate_and_review_result_from P operation fuel k w
    = (wait_completion operation fuel k, logged (wait_calls P operation fuel k) w)).
  { intros f k w E. rewrite wait_from_done by exact E.
    unfold GetResults, call. rewrite bind_emit, logged_logged.
    destruct f; simpl; destruct (op_Status operation k); try congruence;
      destruct (op_GetResults operation); reflexivity. }
  induction fuel as [|fuel IH]; intros k w;
    destruct (decide (op_Status operation k = Started)) as [E|E];
    try (apply Done; exact E).
  - rewrite wait_from_starved by exact E. simpl. rewrite E. reflexivity.
  - rewrite wait_from_turn by exact E. rewrite IH, logged_logged.
    simpl. rewrite E. reflexivity.
Qed.

(** The loop ends once the operation has left the running state. *)
Lemma wait_completion_enough (operation : RateAndReviewOperation) (fuel : nat) :
  forall k : nat,
  (exists n, (n <= fuel)%nat /\ op_Status operation (k + n) <> Started) ->
  wait_completion operation fuel k <> OutOfFuel.
Proof.
  induction fuel as [|fuel IH]; intros k (n & Hn & Over); simpl;
    destruct (op_Status operation k) eqn:E;
    try (destruct (op_GetResults operation); discriminate).
  - assert (n = 0)%nat as -> by lia. rewrite Nat.add_0_r in Over. contradiction.
  - apply IH. destruct n as [|n]; [rewrite Nat.add_0_r in Over; contradiction|].
    exists n. split; [lia|]. replace (S k + n)%nat with (k + S n)%nat by lia.
    exact Over.
Qed.

(** ** Running an entry point *)

Ltac unfold_bridge :=
  unfold msstore_winrt_get_license_json, get_license_json_try,
    msstore_winrt_get_last_error,
    msstore_winrt_request_purchase, request_purchase_try,
    msstore_winrt_request_rate_and_review, request_rate_and_review_try,
    msstore_winrt_free, initialize_store_ui_owner, dup_string,
    try_catch, bind, call, emit, set_last_error, clear_last_error,
    get_last_error, ret, throw in *.

(** Splits on the next answer of the platform the code looks at. *)
Ltac case_oracle :=
  match goal with
  | |- context [match ?x with _ => _ end] =>
      let T := type of x in
      lazymatch T with
      | answer _ => destruct x eqn:?
      | option _ => destruct x eqn:?
      | bool => destruct x eqn:?
      end; simpl
  end.

(** Splits on how the pump loop ends. *)
Ltac case_wait :=
  progress (unfold wait_for_rate_and_review_result in *; rewrite ?wait_from_run);
  repeat match goal with
  | |- context [wait_completion ?o ?f ?k] =>
      destruct (wait_completion o f k) eqn:?
  end;
  simpl.

Ltac run_bridge :=
  unfold_bridge; simpl; repeat (first [case_oracle | case_wait]).

Lemma last_error_insert (g : gmap thread_id string) h tr (t : thread_id) (m : string) :
  last_error (mkWorld (<[t := m]> g) h tr) t = m.
Proof. unfold last_error; simpl. rewrite lookup_insert_eq. reflexivity. Qed.

Lemma fixed_messages_nonempty (m : string) :
  m ∈ fixed_messages -> m <> EmptyString.
Proof.
  unfold fixed_messages. intros H ->.
  repeat (apply elem_of_cons in H as [H|H]; [discriminate H|]).
  apply elem_of_nil in H. exact H.
Qed.

(** The loop gives up exactly when the fuel ends while the operation is
    still running. *)
Lemma wait_from_short_of_fuel (P : Platform) (operation : RateAndReviewOperation)
    (fuel : nat) : forall (k : nat) (w : World),
  (forall j, (j <= fuel)%nat -> op_Status operation (k + j) = Started) ->
  fst (wait_for_rate_and_review_result_from P operation fuel k w) = OutOfFuel.
Proof.
  induction fuel as [|fuel IH]; intros k w H.
  - rewrite wait_from_starved; [reflexivity|].
    specialize (H 0%nat). rewrite Nat.add_0_r in H. apply H. lia.
  - rewrite wait_from_turn.
    + apply IH. intros j Hj. replace (S k + j)%nat with (k + S j)%nat by lia.
      apply H. lia.
    + specialize (H 0%nat). rewrite Nat.add_0_r in H. apply H. lia.
Qed.

(** ** The status tables *)

(** C10.  Both status maps are total: whatever value the platform hands
    over, also one outside the enumeration, [map_purchase_status] answers a
    code from 0 to 5, and 5 for every value that is not one of the five
    enumerators it names; [map_rate_and_review_status] answers a code from 0
    to 4, and 4 for every value that is not one of its four enumerators. *)
Theorem status_maps_total (status : Z) :
  (map_purchase_status status ∈ [0; 1; 2; 3; 4; 5] /\
   (status ∉ StorePurchaseStatus.enumerators -> map_purchase_status status = 5)) /\
  (map_rate_and_review_status status ∈ [0; 1; 2; 3; 4] /\
   (status ∉ StoreRateAndReviewStatus.enumerators ->
    map_rate_and_review_status status = 4)).
Proof.
  repeat split.
  - pose proof (map_purchase_status_range status) as H.
    assert (E : map_purchase_status status = 0 \/ map_purchase_status status = 1 \/
                map_purchase_status status = 2 \/ map_purchase_status status = 3 \/
                map_purchase_status status = 4 \/ map_purchase_status status = 5)
      by lia.
    clear H. destruct E as [E | [E | [E | [E | [E | E]]]]]; rewrite E; set_solver.
  - apply map_purchase_status_default.
  - pose proof (map_rate_and_review_status_range status) as H.
    assert (E : map_rate_and_review_status status = 0 \/
                map_rate_and_review_status status = 1 \/
                map_rate_and_review_status status = 2 \/
                map_rate_and_review_status status = 3 \/
                map_rate_and_review_status status = 4) by lia.
    clear H. destruct E as [E | [E | [E | [E | E]]]]; rewrite E; set_solver.
  - apply map_rate_and_review_status_default.
Qed.

(** The values outside the enumerations exist and take the default. *)
Example status_maps_outside :
  map_purchase_status 5 = 5 /\ map_purchase_status (-7) = 5 /\
  map_rate_and_review_status 4 = 4 /\ map_rate_and_review_status 2147483647 = 4.
Proof. repeat split. Qed.

(** C4.  The status translation is the fixed tables.  Purchase: Succeeded
    is 0, AlreadyPurchased 1, NotPurchased 2, NetworkError 3, ServerError 4,
    and what the platform reports besides (Unknown) 5.  Rating: Succeeded is
    0, CanceledByUser 1, NetworkError 2, Error 3, and what the platform
    reports besides (Unknown) 4.  A purchase or rating flow that completes
    with platform status [s] makes the entry point return the table's code
    for [s], and an entry point returns -1 only when its flow did not
    complete. *)
Theorem status_codes_are_the_tables
    (P : Platform) (t : thread_id) (storeId : option string) (fuel : nat)
    (w : World) :
  (map_purchase_status StorePurchaseStatus.Succeeded = 0 /\
   map_purchase_status StorePurchaseStatus.AlreadyPurchased = 1 /\
   map_purchase_status StorePurchaseStatus.NotPurchased = 2 /\
   map_purchase_status StorePurchaseStatus.NetworkError = 3 /\
   map_purchase_status StorePurchaseStatus.ServerError = 4 /\
   (forall s, s ∉ StorePurchaseStatus.enumerators -> map_purchase_status s = 5)) /\
  (map_rate_and_review_status StoreRateAndReviewStatus.Succeeded = 0 /\
   map_rate_and_review_status StoreRateAndReviewStatus.CanceledByUser = 1 /\
   map_rate_and_review_status StoreRateAndReviewStatus.NetworkError = 2 /\
   map_rate_and_review_status StoreRateAndReviewStatus.Error = 3 /\
   (forall s, s ∉ StoreRateAndReviewStatus.enumerators ->
              map_rate_and_review_status s = 4)) /\
  (forall s, purchase_flow_completes P storeId s ->
     fst (msstore_winrt_request_purchase P t storeId w)
     = Returns (map_purchase_status s)) /\
  (forall n s, rating_flow_completes P n s -> (n <= fuel)%nat ->
     fst (msstore_winrt_request_rate_and_review P fuel t w)
     = Returns (map_rate_and_review_status s)) /\
  (fst (msstore_winrt_request_purchase P t storeId w) = Returns (-1) ->
     forall s, ~ purchase_flow_completes P storeId s) /\
  (fst (msstore_winrt_request_rate_and_review P fuel t w) = Returns (-1) ->
     forall n s, ~ rating_flow_completes P n s).
Proof.
  assert (Purchase : forall s, purchase_flow_completes P storeId s ->
            fst (msstore_winrt_request_purchase P t storeId w)
            = Returns (map_purchase_status s)).
  { intros s (mem & owner & result & -> & E0 & E1 & E2 & E3 & E4 & E5 & E6).
    unfold_bridge. rewrite E0, E1, E2, E3, E4, E5. simpl. rewrite E6. reflexivity. }
  assert (Rating : forall n s, rating_flow_completes P n s -> (n <= fuel)%nat ->
            fst (msstore_winrt_request_rate_and_review P fuel t w)
            = Returns (map_rate_and_review_status s)).
  { intros n s (owner & operation & result & E1 & E2 & E3 & E4 & E5 & Run & Done & E6 & E7) Hn.
    unfold_bridge. rewrite E1, E2, E3, E4, E5. simpl.
    unfold wait_for_rate_and_review_result.
    replace fuel with (n + (fuel - n))%nat by lia.
    rewrite wait_from_turns by (intros j Hj; apply Run; exact Hj).
    rewrite wait_from_done by exact Done.
    unfold GetResults, call, bind, emit, ret. rewrite E6. simpl. rewrite E7.
    reflexivity. }
  split; [|split; [|split; [exact Purchase|split; [exact Rating|split]]]].
  - repeat split. apply map_purchase_status_default.
  - repeat split. apply map_rate_and_review_status_default.
  - intros H s C. rewrite (Purchase s C) in H.
    pose proof (map_purchase_status_range s). injection H as H. lia.
  - intros H n s C.
    destruct (le_lt_dec n fuel) as [Hn|Hn].
    + rewrite (Rating n s C Hn) in H.
      pose proof (map_rate_and_review_status_range s). injection H as H. lia.
    + destruct C as (owner & operation & result & E1 & E2 & E3 & E4 & E5 & Run & _).
      revert H. unfold_bridge. rewrite E1, E2, E3, E4, E5. simpl.
      unfold wait_for_rate_and_review_result.
      pose proof (wait_from_short_of_fuel P operation fuel 0
        (logged [EvRequestRateAndReviewAppAsync]
           (logged [EvInitialize owner] (logged [EvAsInitializeWithWindow]
             (logged [EvGetForegroundWindow] (logged [EvGetDefault]
               (logged [EvInitApartment] w))))))) as Short.
      destruct (wait_for_rate_and_review_result_from _ _ _ _ _) as [c w2].
      simpl in Short. rewrite Short by (intros j Hj; apply Run; lia).
      discriminate.
Qed.

(** A simulated purchase that the platform reports as AlreadyPurchased
    yields 1 and an empty error slot. *)
Example purchase_already_purchased :
  exists w',
    msstore_winrt_request_purchase desktop 0%nat (Some "9NBLGGH4R315"%string) after_failure
    = (Returns 1, w') /\ last_error w' 0%nat = EmptyString.
Proof. eexists. split; reflexivity. Qed.

(** ** Validation of the store id *)



(** The null pointer, and a pointer to a terminator that other bytes
    follow. *)
Example request_purchase_null_id :
  msstore_winrt_request_purchase desktop 0%nat None new_process
  = (Returns (-1),
     mkWorld {[ 0%nat := "Store ID is null or empty."%string ]} ∅ []).
Proof. reflexivity. Qed.

Example request_purchase_terminator_first :
  fst (msstore_winrt_request_purchase desktop 0%nat
         (Some (String NUL "9NBLGGH4R315")) new_process) = Returns (-1).
Proof. reflexivity. Qed.

(** ** The pumping wait *)

Lemma dispatched_app (a b : list event) :
  dispatched (a ++ b) = dispatched a ++ dispatched b.
Proof. unfold dispatched. apply omap_app. Qed.

Lemma dispatched_pump_events (queue : list MSG) :
  dispatched (pump_events queue) = queue.
Proof.
  induction queue as [|m rest IH]; [reflexivity|].
  simpl. unfold dispatched in *. simpl. rewrite IH. reflexivity.
Qed.

Lemma dispatched_turn_events (P : Platform) (k : nat) :
  dispatched (turn_events P k) = PeekMessageW P k.
Proof.
  unfold turn_events.
  change (EvAsyncStatus k Started :: ?l) with ([EvAsyncStatus k Started] ++ l).
  rewrite !dispatched_app, dispatched_pump_events. simpl.
  unfold dispatched; simpl. apply app_nil_r.
Qed.

Lemma GetResults_calls_app (a b : list event) :
  GetResults_calls (a ++ b) = (GetResults_calls a + GetResults_calls b)%nat.
Proof. unfold GetResults_calls. rewrite filter_app, length_app. reflexivity. Qed.

Lemma GetResults_calls_pump_events (queue : list MSG) :
  GetResults_calls (pump_events queue) = 0%nat.
Proof. induction queue as [|m rest IH]; [reflexivity|]. exact IH. Qed.

Lemma GetResults_calls_turns_events (P : Platform) (n : nat) : forall k,
  GetResults_calls (turns_events P n k) = 0%nat.
Proof.
  induction n as [|n IH]; intros k; [reflexivity|].
  change (turns_events P (S n) k) with (turn_events P k ++ turns_events P n (S k)).
  rewrite GetResults_calls_app, IH. unfold turn_events.
  change (EvAsyncStatus k Started :: ?l) with ([EvAsyncStatus k Started] ++ l).
  rewrite !GetResults_calls_app, GetResults_calls_pump_events. reflexivity.
Qed.

Lemma turns_events_app (P : Platform) (a : nat) : forall (b k : nat),
  turns_events P (a + b) k = turns_events P a k ++ turns_events P b (k + a).
Proof.
  induction a as [|a IH]; intros b k.
  - simpl. rewrite Nat.add_0_r. reflexivity.
  - change (turns_events P (S a + b) k)
      with (turn_events P k ++ turns_events P (a + b) (S k)).
    change (turns_events P (S a) k)
      with (turn_events P k ++ turns_events P a (S k)).
    rewrite IH, <- app_assoc. replace (S k + a)%nat with (k + S a)%nat by lia.
    reflexivity.
Qed.

(** C6.  The pumping wait, on an operation that is running at its first [N]
    status tests and completed at the next, makes [N] turns: in each it
    dispatches every message that is on the calling thread's queue, in
    order, then waits (50 ms at most), and only then tests the status again;
    when the operation has left the running state it calls [GetResults]
    once, as the last call, and returns what that call answered. *)
Theorem pumping_wait_dispatches_then_returns
    (P : Platform) (operation : RateAndReviewOperation) (N fuel : nat)
    (result : option StoreRateAndReviewResult) (w : World) :
  (forall k, (k < N)%nat -> op_Status operation k = Started) ->
  op_Status operation N = Completed ->
  op_GetResults operation = Value result ->
  (N <= fuel)%nat ->
  let calls := turns_events P N 0 ++ [EvAsyncStatus N Completed; EvGetResults] in
  wait_for_rate_and_review_result P fuel operation w
  = (Returns result, logged calls w) /\
  (forall k, (k < N)%nat ->
     dispatched (turn_events P k) = PeekMessageW P k /\
     exists before after,
       calls = before ++ turn_events P k
                 ++ EvAsyncStatus (S k) (op_Status operation (S k)) :: after) /\
  GetResults_calls calls = 1%nat.
Proof.
  intros Run Done Res Hfuel calls. subst calls. split; [|split].
  - unfold wait_for_rate_and_review_result.
    replace fuel with (N + (fuel - N))%nat by lia.
    rewrite wait_from_turns by (intros j Hj; apply Run; exact Hj).
    rewrite wait_from_done by (simpl; rewrite Done; discriminate).
    simpl. rewrite Done. unfold GetResults, call. rewrite bind_emit, Res.
    unfold ret. rewrite !logged_logged. reflexivity.
  - intros k Hk. split; [apply dispatched_turn_events|].
    exists (turns_events P k 0).
    pose proof (turns_events_app P k (S (N - S k)) 0) as Split.
    replace (k + S (N - S k))%nat with N in Split by lia.
    rewrite Split. clear Split. simpl (0 + k)%nat.
    change (turns_events P (S (N - S k)) k)
      with (turn_events P k ++ turns_events P (N - S k) (S k)).
    destruct (N - S k)%nat as [|m] eqn:E.
    + assert (S k = N) as <- by lia. rewrite Done.
      exists [EvGetResults]. rewrite app_nil_r, <- !app_assoc. reflexivity.
    + rewrite (Run (S k)) by lia.
      eexists. rewrite <- !app_assoc.
      change (turns_events P (S m) (S k))
        with (turn_events P (S k) ++ turns_events P m (S (S k))).
      unfold turn_events at 2. rewrite <- !app_assoc. reflexivity.
  - rewrite GetResults_calls_app, GetResults_calls_turns_events. reflexivity.
Qed.

Lemma pumping_wait_dispatches_then_returns_witness :
  wait_for_rate_and_review_result desktop 5 slow_operation new_process
  = (Returns (Some {| rate_Status := Value StoreRateAndReviewStatus.CanceledByUser |}),
     logged (turns_events desktop 2 0 ++ [EvAsyncStatus 2 Completed; EvGetResults])
            new_process) /\
  (forall k, (k < 2)%nat ->
     dispatched (turn_events desktop k) = PeekMessageW desktop k /\
     exists before after,
       turns_events desktop 2 0 ++ [EvAsyncStatus 2 Completed; EvGetResults]
       = before ++ turn_events desktop k
           ++ EvAsyncStatus (S k) (op_Status slow_operation (S k)) :: after) /\
  GetResults_calls (turns_events desktop 2 0 ++ [EvAsyncStatus 2 Completed; EvGetResults])
  = 1%nat.
Proof.
  apply (pumping_wait_dispatches_then_returns desktop slow_operation 2 5).
  - intros k Hk. simpl. destruct (Nat.ltb_spec k 2); [reflexivity | lia].
  - reflexivity.
  - reflexivity.
  - lia.
Defined.

(** The calls of that run, spelled out. *)
Example pumping_wait_trace :
  trace (snd (wait_for_rate_and_review_result desktop 5 slow_operation new_process))
  = [ EvAsyncStatus 0 Started;
      EvPeekMessage (Some 0%nat); EvTranslateMessage 0%nat; EvDispatchMessage 0%nat;
      EvPeekMessage (Some 1%nat); EvTranslateMessage 1%nat; EvDispatchMessage 1%nat;
      EvPeekMessage None; EvMsgWaitForMultipleObjectsEx 50;
      EvAsyncStatus 1 Started;
      EvPeekMessage (Some 10%nat); EvTranslateMessage 10%nat; EvDispatchMessage 10%nat;
      EvPeekMessage (Some 11%nat); EvTranslateMessage 11%nat; EvDispatchMessage 11%nat;
      EvPeekMessage None; EvMsgWaitForMultipleObjectsEx 50;
      EvAsyncStatus 2 Completed; EvGetResults ].
Proof. reflexivity. Qed.

(** An operation that is over before the first test: no turn, no message
    dispatched. *)
Example pumping_wait_no_turn :
  trace (snd (wait_for_rate_and_review_result desktop 5
                {| op_Status := fun _ => Completed; op_GetResults := Value None |}
                new_process))
  = [EvAsyncStatus 0 Completed; EvGetResults].
Proof. reflexivity. Qed.

(** ** Reading the last error *)

Lemma fresh_block_unused (w : World) :
  task_heap w !! fresh (dom (task_heap w)) = None.
Proof. apply not_elem_of_dom, is_fresh. Qed.

(** C2 (as amended).  [msstore_winrt_get_last_error] always returns (no
    exception leaves it) and never changes an error slot.  When the COM task
    allocator finds memory it returns a non-null pointer to a block that was
    not in use before and now holds the calling thread's last error
    message, empty or not, followed by the terminator; when the allocator
    finds none it returns null and allocates nothing. *)
Theorem get_last_error_publishes_slot (P : Platform) (t : thread_id) (w : World) :
  exists r w',
    msstore_winrt_get_last_error P t w = (Returns r, w') /\
    g_lastError w' = g_lastError w /\
    if CoTaskMemAlloc_succeeds P then
      exists p, r = Some p /\ task_heap w !! p = None /\
                task_heap w'
                = <[p := (last_error w t ++ String NUL EmptyString)%string]> (task_heap w)
    else r = None /\ task_heap w' = task_heap w.
Proof.
  unfold_bridge. destruct (CoTaskMemAlloc_succeeds P).
  - do 2 eexists. split; [reflexivity|]. split; [reflexivity|].
    eexists. split; [reflexivity|]. split; [apply fresh_block_unused | reflexivity].
  - do 2 eexists. split; [reflexivity|]. repeat split.
Qed.

(** C2 as stated fails: with the allocator out of memory the call returns
    the null pointer. *)
Lemma get_last_error_null_when_out_of_memory :
  msstore_winrt_get_last_error out_of_memory 0%nat after_failure
  = (Returns None, logged [EvCoTaskMemAlloc 25 None] after_failure).
Proof. reflexivity. Qed.

(** With memory: a fresh block holding the message, and the slot as it
    was; on a thread that has had no failure, a block holding the empty
    string. *)
Example get_last_error_reads_slot :
  exists p w',
    msstore_winrt_get_last_error desktop 0%nat after_failure = (Returns (Some p), w') /\
    task_heap w' !! p = Some (String.append "StoreAppLicense is null." (String NUL "")) /\
    last_error w' 0%nat = "StoreAppLicense is null."%string.
Proof. do 2 eexists. repeat split. Qed.

Example get_last_error_empty_slot :
  exists p w',
    msstore_winrt_get_last_error desktop 7%nat after_failure = (Returns (Some p), w') /\
    task_heap w' !! p = Some (String NUL "").
Proof. do 2 eexists. repeat split. Qed.

(** ** Calls without a foreground window *)




(** The same for the rating call. *)
Example headless_rate_and_review :
  msstore_winrt_request_rate_and_review headless 9 0%nat new_process
  = (Returns (-1),
     mkWorld {[ 0%nat := "No foreground window handle available for Store UI."%string ]}
             ∅ [EvInitApartment; EvGetDefault; EvGetForegroundWindow]).
Proof. reflexivity. Qed.

(** ** The error slot after a call *)

(** C1 (as amended).  After [msstore_winrt_get_license_json],
    [msstore_winrt_request_purchase] or
    [msstore_winrt_request_rate_and_review] returns a non-null buffer or a
    status that is not negative, the calling thread's error slot is empty.
    After one of the two status calls returns -1 (they return nothing else
    that is negative), or the license call returns null while the allocator
    had memory for its result buffer, the slot holds the message of that
    failure: one of the fixed texts, none of them empty, or the text of the
    exception that was caught.  [msstore_winrt_get_last_error] leaves every
    slot as it was, whatever it returns. *)
Theorem error_slot_after_call
    (P : Platform) (fuel : nat) (t : thread_id) (storeId : option string)
    (w : World) :
  (forall r w', msstore_winrt_get_license_json P t w = (Returns r, w') ->
     match r with
     | Some _ => last_error w' t = EmptyString
     | None =>
         CoTaskMemAlloc_succeeds P = true ->
         failure_recorded (get_license_json_try P t) t w w'
     end) /\
  (forall r w', msstore_winrt_request_purchase P t storeId w = (Returns r, w') ->
     (0 <= r /\ last_error w' t = EmptyString) \/
     (r = -1 /\ failure_recorded (request_purchase_try P t storeId) t w w')) /\
  (forall r w', msstore_winrt_request_rate_and_review P fuel t w = (Returns r, w') ->
     (0 <= r /\ last_error w' t = EmptyString) \/
     (r = -1 /\ failure_recorded (request_rate_and_review_try P fuel t) t w w')) /\
  (forall r w', msstore_winrt_get_last_error P t w = (r, w') ->
     g_lastError w' = g_lastError w) /\
  (forall m, m ∈ fixed_messages -> m <> EmptyString).
Proof.
  split; [|split; [|split; [|split]]].
  - intros r w' H.
    assert (Cases : (exists p, r = Some p /\ last_error w' t = EmptyString) \/
                    (r = None /\
                     (CoTaskMemAlloc_succeeds P = true ->
                      failure_recorded (get_license_json_try P t) t w w'))).
    { revert H. unfold failure_recorded. run_bridge; intros [= <- <-];
        unfold logged; simpl; rewrite ?last_error_insert.
      all: try (left; eexists; split; reflexivity).
      all: right; split; [reflexivity|]; intros Memory.
      all: try discriminate Memory.
      all: try (left; unfold fixed_messages; set_solver).
      all: right; eauto. }
    destruct Cases as [(p & -> & E) | (-> & E)]; exact E.
  - intros r w'. unfold failure_recorded. run_bridge; intros [= <- <-];
      unfold logged; simpl; rewrite ?last_error_insert.
    all: try (left; split; [apply map_purchase_status_range | reflexivity]).
    all: right; split; [reflexivity|].
    all: try (left; unfold fixed_messages; set_solver).
    all: right; eauto.
  - intros r w'. unfold failure_recorded. run_bridge; intros [= <- <-];
      unfold logged; simpl; rewrite ?last_error_insert.
    all: try (left; split; [apply map_rate_and_review_status_range | reflexivity]).
    all: right; split; [reflexivity|].
    all: try (left; unfold fixed_messages; set_solver).
    all: right; eauto.
  - intros r w'. run_bridge; intros [= <- <-]; reflexivity.
  - apply fixed_messages_nonempty.
Qed.

Lemma error_slot_after_call_witness :
  last_error
    (snd (msstore_winrt_request_purchase desktop 0%nat (Some "9NBLGGH4R315"%string)
            after_failure)) 0%nat = EmptyString.
Proof.
  destruct (proj1 (proj2 (error_slot_after_call desktop 0 0%nat
                            (Some "9NBLGGH4R315"%string) after_failure))
              _ _ eq_refl) as [[_ H] | [H _]].
  - exact H.
  - discriminate H.
Defined.

(** C1 as stated fails: after a purchase call that was refused, reading
    the last error succeeds (the buffer is not null) and leaves the slot
    holding the message, not empty. *)
Lemma get_last_error_leaves_slot_set :
  exists w1 p w2,
    msstore_winrt_request_purchase desktop 0%nat None new_process = (Returns (-1), w1) /\
    msstore_winrt_get_last_error desktop 0%nat w1 = (Returns (Some p), w2) /\
    last_error w2 0%nat = "Store ID is null or empty."%string /\
    last_error w2 0%nat <> EmptyString.
Proof.
  do 3 eexists. split; [reflexivity|]. split; [reflexivity|].
  split; [reflexivity | discriminate].
Qed.

(** The license call whose buffer cannot be allocated: null, and an empty
    slot. *)
Example license_out_of_memory :
  exists w',
    msstore_winrt_get_license_json out_of_memory 0%nat after_failure
    = (Returns None, w') /\ last_error w' 0%nat = EmptyString.
Proof. eexists. split; reflexivity. Qed.

(** A platform failure during the license fetch: null, and the slot holds
    the message that was raised. *)
Example license_platform_failure :
  exists w',
    msstore_winrt_get_license_json
      (store_down (hresult_error "The server is unavailable.")) 0%nat new_process
    = (Returns None, w') /\
    last_error w' 0%nat = "The server is unavailable."%string.
Proof. eexists. split; reflexivity. Qed.

(** An exception may carry an empty text ([std::runtime_error("")]): the
    call fails and the slot holds that text. *)
Example failure_with_empty_message :
  exists w',
    msstore_winrt_request_rate_and_review (store_down (std_exception "")) 4 0%nat
      after_failure
    = (Returns (-1), w') /\ last_error w' 0%nat = EmptyString.
Proof. eexists. split; reflexivity. Qed.

(** ** Failures at the entry points *)

(** Each kind of failure, at each place of the license call where the
    platform can raise it. *)
Example license_failure_kinds :
  let failing (P : Platform) :=
    let (r, w') := msstore_winrt_get_license_json P 0%nat new_process in
    (r, last_error w' 0%nat) in
  failing (store_down (hresult_error "Access is denied."))
  = (Returns None, "Access is denied."%string) /\
  failing (store_down (std_exception "bad allocation"))
  = (Returns None, "bad allocation"%string) /\
  failing (store_down other_exception)
  = (Returns None, "Unknown native error."%string).
Proof. repeat split. Qed.

(** A failure after the slot has been cleared (reading the status of the
    result raises) is recorded all the same. *)
Example purchase_status_raises :
  let P := {|
    init_apartment := Value tt;
    StoreContext_GetDefault := Value tt;
    GetForegroundWindow := Some 1%positive;
    as_IInitializeWithWindow := Value tt;
    GetAppLicenseAsync_get := Value None;
    RequestPurchaseAsync_get := fun _ =>
      Value (Some {| purchase_Status := Raises (hresult_error "The object has been closed.") |});
    RequestRateAndReviewAppAsync := Raises other_exception;
    PeekMessageW := fun _ => [];
    CoTaskMemAlloc_succeeds := true
  |} in
  exists w',
    msstore_winrt_request_purchase P 0%nat (Some "9NBLGGH4R315"%string) new_process
    = (Returns (-1), w') /\
    last_error w' 0%nat = "The object has been closed."%string.
Proof. eexists. split; reflexivity. Qed.

(** ** When [std::string] runs out of memory *)

Ltac unfold_out_of_memory :=
  unfold OutOfMemory.msstore_winrt_get_license_json,
    OutOfMemory.get_license_json_try,
    OutOfMemory.msstore_winrt_request_purchase,
    OutOfMemory.request_purchase_try,
    OutOfMemory.initialize_store_ui_owner,
    OutOfMemory.catch_clauses, OutOfMemory.assign_last_error,
    OutOfMemory.bad_alloc in *.

(** With memory for every text the two entry points behave as the
    definitions that take the writes of [g_lastError] to succeed. *)
Lemma OutOfMemory_with_memory
    (H : OutOfMemory.Heap) (P : Platform) (t : thread_id)
    (storeId : option string) (w : World) :
  (forall text, OutOfMemory.string_memory H text = true) ->
  OutOfMemory.msstore_winrt_get_license_json H P t w
  = msstore_winrt_get_license_json P t w /\
  OutOfMemory.msstore_winrt_request_purchase H P t storeId w
  = msstore_winrt_request_purchase P t storeId w.
Proof.
  intros Memory. split; unfold_out_of_memory; run_bridge;
    repeat match goal with
    | E : OutOfMemory.string_memory H _ = false |- _ =>
        rewrite Memory in E; discriminate E
    end; reflexivity.
Qed.

(** C7.  An exception can leave an exported function.  The [catch] clauses
    of [msstore_winrt_get_license_json] and
    [msstore_winrt_request_purchase] store the caught exception's text in
    [g_lastError], and nothing guards that assignment: when the platform
    raises [e] at any call of the entry point and [std::string] finds no
    memory for the text of [e], the [std::bad_alloc] of the assignment
    leaves the function, where the claim has the failure surface as the
    sentinel only. *)
Theorem exception_leaves_when_handler_lacks_memory
    (H : OutOfMemory.Heap) (P : Platform) (t : thread_id) (mem : string)
    (w : World) (e : exn) :
  OutOfMemory.string_memory H (caught_message e) = false ->
  (license_call_raises P e ->
   fst (OutOfMemory.msstore_winrt_get_license_json H P t w)
   = Throws (OutOfMemory.bad_alloc H)) /\
  (deref_is_NUL mem = false ->
   purchase_call_raises P (c_str mem) e ->
   fst (OutOfMemory.msstore_winrt_request_purchase H P t (Some mem) w)
   = Throws (OutOfMemory.bad_alloc H)).
Proof.
  intros NoMemory. split.
  - intros [E1 | [(E1 & E2) | [(E1 & E2 & E3) | (license & E1 & E2 & E3 & E4)]]];
      unfold_out_of_memory; unfold_bridge;
      rewrite ?E1, ?E2, ?E3; simpl; rewrite ?E4; simpl;
      rewrite NoMemory; reflexivity.
  - intros Valid
      [E1 | [(E1 & E2) | (owner & E1 & E2 & E3 &
         [E4 | (E4 & [E5 | (result & E5 & E6)])])]];
      unfold_out_of_memory; unfold_bridge;
      rewrite Valid, ?E1, ?E2, ?E3, ?E4, ?E5; simpl; rewrite ?E6; simpl;
      rewrite NoMemory; reflexivity.
Qed.

Lemma exception_leaves_when_handler_lacks_memory_witness :
  fst (OutOfMemory.msstore_winrt_get_license_json exhausted
         (store_down (hresult_error "The server is unavailable.")) 0%nat new_process)
  = Throws (std_exception "bad allocation").
Proof.
  exact (proj1 (exception_leaves_when_handler_lacks_memory exhausted
                  (store_down (hresult_error "The server is unavailable."))
                  0%nat "9NBLGGH4R315"%string new_process
                  (hresult_error "The server is unavailable.") eq_refl)
           (or_intror (or_introl (conj eq_refl eq_refl)))).
Defined.

(** The purchase call in the same plight, and the world it leaves: the
    slot still holds the text of the earlier failure. *)
Example purchase_exception_leaves :
  OutOfMemory.msstore_winrt_request_purchase exhausted
    (store_down (hresult_error "The server is unavailable.")) 0%nat
    (Some "9NBLGGH4R315"%string) after_failure
  = (Throws (std_exception "bad allocation"),
     logged [EvInitApartment; EvGetDefault] after_failure).
Proof. reflexivity. Qed.

(** An assignment in the [try] block that finds no memory is caught like
    any [std::exception]: here the text of [std::bad_alloc] fits the
    string's own buffer, and the call returns its sentinel. *)
Example try_block_bad_alloc_is_caught :
  exists w',
    OutOfMemory.msstore_winrt_request_purchase exhausted desktop 0%nat None new_process
    = (Returns (-1), w') /\ last_error w' 0%nat = "bad allocation"%string.
Proof. eexists. split; reflexivity. Qed.

(** X15.  With memory for the text of the exception, a failure of the
    platform at any call of [msstore_winrt_get_license_json] or
    [msstore_winrt_request_purchase] is absorbed: whichever call raises
    [e], the function returns its sentinel (null, -1), the calling
    thread's slot holds the most specific text there is for [e]
    ([message()] of a [winrt::hresult_error], [what()] of a
    [std::exception], "Unknown native error." otherwise), and nothing is
    allocated for the caller. *)
Theorem platform_failures_are_absorbed
    (H : OutOfMemory.Heap) (P : Platform) (t : thread_id) (mem : string)
    (w : World) (e : exn) :
  OutOfMemory.string_memory H (caught_message e) = true ->
  (license_call_raises P e ->
   exists w',
     OutOfMemory.msstore_winrt_get_license_json H P t w = (Returns None, w') /\
     last_error w' t = caught_message e /\ task_heap w' = task_heap w) /\
  (deref_is_NUL mem = false ->
   purchase_call_raises P (c_str mem) e ->
   exists w',
     OutOfMemory.msstore_winrt_request_purchase H P t (Some mem) w
     = (Returns (-1), w') /\
     last_error w' t = caught_message e /\ task_heap w' = task_heap w) /\
  (forall message, caught_message (hresult_error message) = message) /\
  (forall what, caught_message (std_exception what) = what) /\
  caught_message other_exception = "Unknown native error."%string.
Proof.
  intros Memory. split; [|split; [|repeat split]].
  - intros [E1 | [(E1 & E2) | [(E1 & E2 & E3) | (license & E1 & E2 & E3 & E4)]]];
      unfold_out_of_memory; unfold_bridge;
      rewrite ?E1, ?E2, ?E3; simpl; rewrite ?E4; simpl;
      rewrite Memory; eexists; (split; [reflexivity|]);
      (split; [apply last_error_insert | reflexivity]).
  - intros Valid
      [E1 | [(E1 & E2) | (owner & E1 & E2 & E3 &
         [E4 | (E4 & [E5 | (result & E5 & E6)])])]];
      unfold_out_of_memory; unfold_bridge;
      rewrite Valid, ?E1, ?E2, ?E3, ?E4, ?E5; simpl; rewrite ?E6; simpl;
      rewrite Memory; eexists; (split; [reflexivity|]);
      (split; [apply last_error_insert | reflexivity]).
Qed.

Lemma platform_failures_are_absorbed_witness :
  exists w',
    OutOfMemory.msstore_winrt_request_purchase plentiful
      (store_down (std_exception "no store")) 0%nat (Some "9NBLGGH4R315"%string)
      after_failure
    = (Returns (-1), w') /\
    last_error w' 0%nat = caught_message (std_exception "no store") /\
    task_heap w' = task_heap after_failure.
Proof.
  exact (proj1 (proj2 (platform_failures_are_absorbed plentiful
                         (store_down (std_exception "no store")) 0%nat
                         "9NBLGGH4R315"%string after_failure
                         (std_exception "no store") eq_refl))
           eq_refl (or_intror (or_introl (conj eq_refl eq_refl)))).
Defined.

(** ** One error slot per thread *)

(** A call writes no slot but the caller's. *)
Lemma invoke_other_slots (i : invocation) (t : thread_id) (w : World) :
  caller i <> t ->
  g_lastError (snd (invoke i w)) !! t = g_lastError w !! t.
Proof.
  intros Other. destruct i as [c P [| |storeId|fuel|ptr]]; simpl in Other;
    unfold invoke; simpl; run_bridge;
    rewrite ?lookup_insert_ne by exact Other; reflexivity.
Qed.

(** What a call leaves in the caller's slot is decided by what that slot
    held, not by the other slots, the allocator or the trace. *)
Lemma invoke_own_slot (i : invocation) (w1 w2 : World) :
  g_lastError w1 !! caller i = g_lastError w2 !! caller i ->
  g_lastError (snd (invoke i w1)) !! caller i
  = g_lastError (snd (invoke i w2)) !! caller i.
Proof.
  intros Same. destruct i as [c P [| |storeId|fuel|ptr]]; simpl in Same;
    unfold invoke; simpl; run_bridge;
    rewrite ?lookup_insert_eq; first [reflexivity | exact Same].
Qed.

(** What a call returns is decided by the caller's slot and the allocator. *)
Lemma invoke_result (i : invocation) (w1 w2 : World) :
  g_lastError w1 !! caller i = g_lastError w2 !! caller i ->
  task_heap w1 = task_heap w2 ->
  fst (invoke i w1) = fst (invoke i w2).
Proof.
  intros Same Heap. destruct i as [c P [| |storeId|fuel|ptr]]; simpl in Same;
    unfold invoke; simpl; run_bridge; rewrite ?Heap; reflexivity.
Qed.

Lemma run_schedule_slot (t : thread_id) (s : list invocation) : forall w1 w2,
  g_lastError w1 !! t = g_lastError w2 !! t ->
  g_lastError (run_schedule s w1) !! t
  = g_lastError (run_schedule (calls_of t s) w2) !! t.
Proof.
  induction s as [|i rest IH]; intros w1 w2 Same; [exact Same|].
  unfold calls_of. rewrite filter_cons. fold (calls_of t rest).
  destruct (decide (caller i = t)) as [<-|Other]; simpl; apply IH.
  - apply invoke_own_slot, Same.
  - rewrite invoke_other_slots by exact Other. exact Same.
Qed.

(** What a call leaves in the allocator and what it calls are decided by
    the caller's slot and the allocator. *)
Lemma invoke_effects (i : invocation) (w1 w2 : World) :
  g_lastError w1 !! caller i = g_lastError w2 !! caller i ->
  task_heap w1 = task_heap w2 ->
  task_heap (snd (invoke i w1)) = task_heap (snd (invoke i w2)) /\
  calls_during w1 (snd (invoke i w1)) = calls_during w2 (snd (invoke i w2)).
Proof.
  intros Same Heap. destruct i as [c P [| |storeId|fuel|ptr]]; simpl in Same;
    unfold invoke; simpl; run_bridge; unfold last_error;
    rewrite ?Heap, ?Same; (split; [reflexivity|]);
    unfold calls_during, logged; simpl; rewrite <- ?app_assoc; simpl;
    rewrite ?drop_app_length, ?drop_all; reflexivity.
Qed.

(** What the caller sees of a call is decided by the caller's slot alone. *)
Lemma invoke_observation (i : invocation) (w1 w2 : World) :
  g_lastError w1 !! caller i = g_lastError w2 !! caller i ->
  observe (invoke i w1) = observe (invoke i w2).
Proof.
  intros Same. destruct i as [c P [| |storeId|fuel|ptr]]; simpl in Same;
    unfold invoke, observe; simpl; run_bridge; unfold last_error;
    rewrite ?lookup_insert_eq, ?Same; reflexivity.
Qed.

Lemma observations_alone (t : thread_id) (s : list invocation) : forall w1 w2,
  g_lastError w1 !! t = g_lastError w2 !! t ->
  observations t s w1 = observations t (calls_of t s) w2.
Proof.
  induction s as [|i rest IH]; intros w1 w2 Same; [reflexivity|].
  unfold calls_of. rewrite filter_cons. fold (calls_of t rest). simpl.
  destruct (decide (caller i = t)) as [E|Other]; simpl.
  - rewrite decide_True by exact E. subst t.
    rewrite (invoke_observation i w1 w2 Same). f_equal.
    apply IH, invoke_own_slot, Same.
  - apply IH. rewrite invoke_other_slots by exact Other. exact Same.
Qed.

(** C8.  A call of an exported function by one thread neither writes nor
    reads the error slot of another thread.  The slots of the other threads
    are after the call what they were before it.  In two worlds that differ
    in the other threads' slots only, the call returns the same, leaves the
    same blocks with the same bytes in the allocator, makes the same calls
    and leaves the same text in the caller's slot; and what the caller sees
    of it (the status, or the bytes of the returned buffer) is decided by
    the caller's own slot even when the allocator differs.  After any
    interleaving of calls by any number of threads, a thread's slot holds
    what it would hold, and the thread has seen of each of its calls what
    it would have seen, had it made its calls alone. *)
Theorem error_slots_are_thread_local
    (i : invocation) (s : list invocation) (t : thread_id) (w w1 w2 : World) :
  (caller i <> t -> g_lastError (snd (invoke i w)) !! t = g_lastError w !! t) /\
  (g_lastError w1 !! caller i = g_lastError w2 !! caller i ->
   (task_heap w1 = task_heap w2 ->
    fst (invoke i w1) = fst (invoke i w2) /\
    task_heap (snd (invoke i w1)) = task_heap (snd (invoke i w2)) /\
    calls_during w1 (snd (invoke i w1)) = calls_during w2 (snd (invoke i w2))) /\
   g_lastError (snd (invoke i w1)) !! caller i
   = g_lastError (snd (invoke i w2)) !! caller i /\
   observe (invoke i w1) = observe (invoke i w2)) /\
  last_error (run_schedule s w) t = last_error (run_schedule (calls_of t s) w) t /\
  observations t s w = observations t (calls_of t s) w.
Proof.
  split; [|split; [|split]].
  - apply invoke_other_slots.
  - intros Same. split; [|split].
    + intros Heap. split; [apply invoke_result; assumption|].
      apply invoke_effects; assumption.
    + apply invoke_own_slot, Same.
    + apply invoke_observation, Same.
  - unfold last_error. rewrite (run_schedule_slot t s w w eq_refl). reflexivity.
  - apply observations_alone. reflexivity.
Qed.

Lemma error_slots_are_thread_local_witness :
  observations 2%nat overlapping_failures new_process
  = observations 2%nat (calls_of 2%nat overlapping_failures) new_process.
Proof.
  exact (proj2 (proj2 (proj2 (error_slots_are_thread_local
                         {| caller := 1%nat; platform := desktop;
                            entry := get_last_error_text |}
                         overlapping_failures 2%nat
                         new_process new_process new_process)))).
Defined.

(** What the two threads of [overlapping_failures] see: each its own
    failure, and its own message when it reads the last error. *)
Example overlapping_failures_observed :
  observations 1%nat overlapping_failures new_process
  = [ SawStatus (-1);
      SawBuffer (Some (String.append "Store ID is null or empty." (String NUL ""))) ] /\
  observations 2%nat overlapping_failures new_process
  = [ SawNull; SawBuffer (Some (String.append "no store" (String NUL ""))) ].
Proof. split; reflexivity. Qed.

(** A thread that reads the last error without having failed sees the
    empty string, whatever the other threads' slots hold. *)
Example untouched_thread_reads_empty :
  observations 7%nat
    (overlapping_failures
       ++ [{| caller := 7%nat; platform := desktop; entry := get_last_error_text |}])
    after_failure
  = [SawBuffer (Some (String NUL ""))].
Proof. reflexivity. Qed.

Example overlapping_failures_slots :
  let w' := run_schedule overlapping_failures new_process in
  last_error w' 1%nat = "Store ID is null or empty."%string /\
  last_error w' 2%nat = "no store"%string /\
  last_error w' 3%nat = EmptyString /\
  task_heap w' !! 1%positive
  = Some (String.append "Store ID is null or empty." (String NUL "")) /\
  task_heap w' !! 2%positive = Some (String.append "no store" (String NUL "")).
Proof. repeat split. Qed.

(** ** Releasing buffers *)


Lemma last_snoc {A} (l : list A) (x : A) : last (l ++ [x]) = Some x.
Proof. induction l as [|y [|z l] IH]; [reflexivity..|exact IH]. Qed.

(** C9.  [msstore_winrt_free] of the null pointer does nothing at all: no
    call is made and the world is the one before.  Of a non-null pointer it
    makes one call, [CoTaskMemFree], which gives the block back to the COM
    task allocator.  That is the allocator every buffer the interface
    returns comes from: a non-null result of
    [msstore_winrt_get_license_json] or [msstore_winrt_get_last_error] was
    handed out by [CoTaskMemAlloc] during the call, and freeing it leaves
    the allocator as it was before the call. *)
Theorem free_returns_block_to_task_allocator
    (P : Platform) (t : thread_id) (w : World) :
  msstore_winrt_free None w = (Returns tt, w) /\
  (forall p, msstore_winrt_free (Some p) w
             = (Returns tt,
                mkWorld (g_lastError w) (delete p (task_heap w))
                        (trace w ++ [EvCoTaskMemFree p]))) /\
  (forall call : M (option address),
     call = msstore_winrt_get_license_json P t \/
     call = msstore_winrt_get_last_error P t ->
     forall p w', call w = (Returns (Some p), w') ->
       task_allocated p w w' /\
       task_heap (snd (msstore_winrt_free (Some p) w')) = task_heap w).
Proof.
  split; [reflexivity|]. split; [reflexivity|].
  intros call [-> | ->] p w'; unfold task_allocated; run_bridge;
    intros [= <- <-]; simpl.
  all: pose proof (fresh_block_unused w) as Fresh.
  all: repeat split;
    [ exact Fresh
    | rewrite lookup_insert_eq; eexists; reflexivity
    | eexists; apply last_snoc
    | rewrite delete_insert_id by exact Fresh; reflexivity ].
Qed.

Lemma free_returns_block_to_task_allocator_witness :
  task_heap
    (snd (msstore_winrt_free (Some 1%positive)
            (snd (msstore_winrt_get_license_json desktop 0%nat new_process))))
  = task_heap new_process.
Proof.
  exact (proj2 (proj2 (proj2 (free_returns_block_to_task_allocator desktop 0%nat new_process))
                        _ (or_introl eq_refl) 1%positive _ eq_refl)).
Defined.

(** A license buffer through its life: allocated, holding the JSON and its
    terminator, freed. *)
Example license_buffer_life :
  exists w1 w2,
    msstore_winrt_get_license_json desktop 0%nat new_process
    = (Returns (Some 1%positive), w1) /\
    task_heap w1 !! 1%positive = Some (String.append "{}" (String NUL "")) /\
    msstore_winrt_free (Some 1%positive) w1 = (Returns tt, w2) /\
    task_heap w2 = ∅ /\
    trace w2 = [ EvInitApartment; EvGetDefault; EvGetAppLicenseAsync; EvExtendedJsonData;
                 EvCoTaskMemAlloc 3 (Some 1%positive); EvCoTaskMemFree 1%positive ].
Proof. do 2 eexists. repeat split. Qed.

(** * Further properties of the bridge *)
Lemma c_str_append_NUL (s rest : string) :
  c_str (s ++ String NUL rest) = c_str s.
Proof.
  induction s as [|c s IH]; simpl; [reflexivity|].
  destruct (Ascii.eqb c NUL); [reflexivity | rewrite IH; reflexivity].
Qed.

Lemma c_str_without_NUL (s : string) :
  contains_NUL s = false -> c_str s = s.
Proof.
  induction s as [|c s IH]; simpl; [reflexivity|].
  destruct (Ascii.eqb c NUL); simpl; [discriminate|].
  intros H. rewrite IH by exact H. reflexivity.
Qed.

Lemma length_append_NUL (s : string) :
  String.length (s ++ String NUL EmptyString) = S (String.length s).
Proof. induction s as [|c s IH]; simpl; [reflexivity | rewrite IH; reflexivity]. Qed.

(** X1.  [dup_string], when the allocator finds memory, hands out a block
    that was not in use, asks for exactly as many bytes as it then copies
    (the length of the string and one more), and leaves every other block
    and every error slot alone.  The block ends in the terminator; read back
    as a C string it gives the string up to its first ['\0'], which is the
    whole string when it holds none. *)
Theorem dup_string_round_trip (P : Platform) (value : string) (w : World) :
  CoTaskMemAlloc_succeeds P = true ->
  exists p block w',
    dup_string P value w = (Returns (Some p), w') /\
    task_heap w !! p = None /\
    task_heap w' !! p = Some block /\
    (forall q, q <> p -> task_heap w' !! q = task_heap w !! q) /\
    g_lastError w' = g_lastError w /\
    calls_during w w' = [EvCoTaskMemAlloc (String.length block) (Some p)] /\
    String.length block = S (String.length value) /\
    terminated block /\
    c_str block = c_str value /\
    (contains_NUL value = false -> c_str block = value).
Proof.
  intros Memory. unfold dup_string. rewrite Memory.
  do 3 eexists. split; [reflexivity|]. simpl.
  split; [apply fresh_block_unused|].
  split; [apply lookup_insert_eq|].
  split; [intros q Hq; apply lookup_insert_ne; congruence|].
  split; [reflexivity|].
  split; [unfold calls_during; simpl; rewrite drop_app_length, length_append_NUL; reflexivity|].
  split; [apply length_append_NUL|].
  split; [eexists; reflexivity|].
  split; [apply c_str_append_NUL|].
  intros H. rewrite c_str_append_NUL. apply c_str_without_NUL, H.
Qed.

Lemma dup_string_round_trip_witness :
  exists p block w',
    dup_string desktop "{}"%string new_process = (Returns (Some p), w') /\
    task_heap new_process !! p = None /\
    task_heap w' !! p = Some block /\
    (forall q, q <> p -> task_heap w' !! q = task_heap new_process !! q) /\
    g_lastError w' = g_lastError new_process /\
    calls_during new_process w' = [EvCoTaskMemAlloc (String.length block) (Some p)] /\
    String.length block = S (String.length "{}") /\
    terminated block /\
    c_str block = c_str "{}" /\
    (contains_NUL "{}" = false -> c_str block = "{}"%string).
Proof. exact (dup_string_round_trip desktop "{}"%string new_process eq_refl). Defined.

Lemma fresh_after_insert (h : gmap address string) (p : address) (b : string) :
  fresh (dom (<[p := b]> h)) <> p.
Proof.
  intros E. pose proof (is_fresh (dom (<[p := b]> h))) as F.
  rewrite E in F. apply F. rewrite dom_insert_L. set_solver.
Qed.

(** X2.  Two calls of [msstore_winrt_get_last_error] in a row on one thread
    return two different blocks that hold the same message: the read does
    not clear the slot, and each result is an allocation of its own.
    Freeing the first leaves the second, and the slot, as they are. *)
Theorem last_error_reads_do_not_alias
    (P1 P2 : Platform) (t : thread_id) (w : World) :
  CoTaskMemAlloc_succeeds P1 = true ->
  CoTaskMemAlloc_succeeds P2 = true ->
  exists p1 p2 w1 w2,
    msstore_winrt_get_last_error P1 t w = (Returns (Some p1), w1) /\
    msstore_winrt_get_last_error P2 t w1 = (Returns (Some p2), w2) /\
    p1 <> p2 /\
    task_heap w2 !! p1 = Some (last_error w t ++ String NUL EmptyString)%string /\
    task_heap w2 !! p2 = Some (last_error w t ++ String NUL EmptyString)%string /\
    task_heap (snd (msstore_winrt_free (Some p1) w2)) !! p1 = None /\
    task_heap (snd (msstore_winrt_free (Some p1) w2)) !! p2
    = Some (last_error w t ++ String NUL EmptyString)%string /\
    last_error (snd (msstore_winrt_free (Some p1) w2)) t = last_error w t.
Proof.
  intros M1 M2. unfold_bridge. rewrite M1, M2. simpl.
  set (b := (last_error w t ++ String NUL EmptyString)%string).
  set (p1 := fresh (dom (task_heap w))).
  pose proof (fresh_after_insert (task_heap w) p1 b) as Fresh.
  exists p1, (fresh (dom (<[p1 := b]> (task_heap w)))). do 2 eexists.
  split; [reflexivity|]. split; [reflexivity|]. simpl.
  split; [congruence|].
  split; [rewrite lookup_insert_ne by exact Fresh; apply lookup_insert_eq|].
  split; [apply lookup_insert_eq|].
  split; [apply lookup_delete_eq|].
  split; [rewrite lookup_delete_ne by congruence; apply lookup_insert_eq | reflexivity].
Qed.

Lemma last_error_reads_do_not_alias_witness :
  exists p1 p2 w1 w2,
    msstore_winrt_get_last_error desktop 0%nat after_failure = (Returns (Some p1), w1) /\
    msstore_winrt_get_last_error desktop 0%nat w1 = (Returns (Some p2), w2) /\
    p1 <> p2 /\
    task_heap w2 !! p1
    = Some (last_error after_failure 0%nat ++ String NUL EmptyString)%string /\
    task_heap w2 !! p2
    = Some (last_error after_failure 0%nat ++ String NUL EmptyString)%string /\
    task_heap (snd (msstore_winrt_free (Some p1) w2)) !! p1 = None /\
    task_heap (snd (msstore_winrt_free (Some p1) w2)) !! p2
    = Some (last_error after_failure 0%nat ++ String NUL EmptyString)%string /\
    last_error (snd (msstore_winrt_free (Some p1) w2)) 0%nat
    = last_error after_failure 0%nat.
Proof.
  exact (last_error_reads_do_not_alias desktop desktop 0%nat after_failure
           eq_refl eq_refl).
Defined.

(** X3.  Only a result that is handed to the caller is ever allocated:
    [msstore_winrt_request_purchase] and
    [msstore_winrt_request_rate_and_review] leave the COM task allocator as
    it was, and so does [msstore_winrt_get_license_json] whenever it returns
    null. *)
Theorem status_calls_leave_allocator
    (P : Platform) (fuel : nat) (t : thread_id) (storeId : option string)
    (w : World) :
  task_heap (snd (msstore_winrt_request_purchase P t storeId w)) = task_heap w /\
  task_heap (snd (msstore_winrt_request_rate_and_review P fuel t w)) = task_heap w /\
  (fst (msstore_winrt_get_license_json P t w) = Returns None ->
   task_heap (snd (msstore_winrt_get_license_json P t w)) = task_heap w).
Proof.
  split; [|split].
  - run_bridge; reflexivity.
  - run_bridge; reflexivity.
  - run_bridge; try reflexivity. discriminate.
Qed.

(** X4.  The status entry points return nothing but their codes: a result
    of [msstore_winrt_request_purchase] is -1 or a code from 0 to 5, a
    result of [msstore_winrt_request_rate_and_review] is -1 or a code from
    0 to 4. *)
Theorem status_codes_in_range
    (P : Platform) (fuel : nat) (t : thread_id) (storeId : option string)
    (w : World) :
  (forall r, fst (msstore_winrt_request_purchase P t storeId w) = Returns r ->
             r = -1 \/ 0 <= r <= 5) /\
  (forall r, fst (msstore_winrt_request_rate_and_review P fuel t w) = Returns r ->
             r = -1 \/ 0 <= r <= 4).
Proof.
  split.
  - intros r. run_bridge; intros [= <-];
      first [left; reflexivity | right; apply map_purchase_status_range].
  - intros r. run_bridge; intros [= <-];
      first [left; reflexivity | right; apply map_rate_and_review_status_range].
Qed.

Lemma status_codes_in_range_witness :
  1 = -1 \/ 0 <= 1 <= 5.
Proof.
  exact (proj1 (status_codes_in_range desktop 0 0%nat (Some "9NBLGGH4R315"%string)
                  new_process) 1 eq_refl).
Defined.


Lemma deref_is_NUL_c_str (m1 m2 : string) :
  c_str m1 = c_str m2 -> deref_is_NUL m1 = deref_is_NUL m2.
Proof.
  intros E. destruct (deref_is_NUL m1) eqn:E1.
  - apply c_str_empty_iff in E1. rewrite E in E1. apply c_str_empty_iff in E1.
    symmetry. exact E1.
  - destruct (deref_is_NUL m2) eqn:E2; [|reflexivity].
    apply c_str_empty_iff in E2. rewrite <- E in E2. apply c_str_empty_iff in E2.
    congruence.
Qed.

(** X6.  [msstore_winrt_request_purchase] reads its argument as a C
    string: two pointers to memory that holds the same bytes up to the first
    ['\0'] get the same result and leave the same world, whatever follows
    the terminator. *)
Theorem purchase_reads_id_up_to_terminator
    (P : Platform) (t : thread_id) (mem1 mem2 : string) (w : World) :
  c_str mem1 = c_str mem2 ->
  msstore_winrt_request_purchase P t (Some mem1) w
  = msstore_winrt_request_purchase P t (Some mem2) w.
Proof.
  intros E. unfold msstore_winrt_request_purchase, request_purchase_try.
  rewrite (deref_is_NUL_c_str mem1 mem2 E), E. reflexivity.
Qed.

Lemma purchase_reads_id_up_to_terminator_witness :
  msstore_winrt_request_purchase desktop 0%nat (Some "9NBLGGH4R315"%string) new_process
  = msstore_winrt_request_purchase desktop 0%nat
      (Some (String.append "9NBLGGH4R315" (String NUL "left over"))) new_process.
Proof.
  apply (purchase_reads_id_up_to_terminator desktop 0%nat). reflexivity.
Defined.

Lemma is_request_pump_events (queue : list MSG) :
  Forall (fun e => is_request e = false) (pump_events queue).
Proof. induction queue as [|m rest IH]; simpl; repeat constructor. exact IH. Qed.

Lemma is_request_wait_calls (P : Platform) (operation : RateAndReviewOperation)
    (fuel : nat) : forall k,
  Forall (fun e => is_request e = false) (wait_calls P operation fuel k).
Proof.
  induction fuel as [|fuel IH]; intros k; simpl;
    destruct (op_Status operation k); repeat constructor.
  repeat (apply Forall_app; split);
    [apply is_request_pump_events | repeat constructor | apply IH].
Qed.

Ltac norm_calls :=
  unfold calls_during, logged; simpl; rewrite <- ?app_assoc; simpl;
  rewrite ?drop_app_length, ?drop_all.

(** X7.  A UI-bearing entry point asks the store for at most one thing per
    call, and only after the owner window is bound: the calls of
    [msstore_winrt_request_purchase] and
    [msstore_winrt_request_rate_and_review] either hold no request at all,
    or start with the apartment, the [StoreContext], the foreground window
    and [Initialize] with that very window, followed by the one request of
    the call. *)
Theorem request_follows_owner_binding
    (P : Platform) (fuel : nat) (t : thread_id) (storeId : option string)
    (w : World) :
  forall run : completion Z * World,
    run = msstore_winrt_request_purchase P t storeId w \/
    run = msstore_winrt_request_rate_and_review P fuel t w ->
    Forall (fun e => is_request e = false) (calls_during w (snd run)) \/
    exists owner request rest,
      GetForegroundWindow P = Some owner /\
      is_request request = true /\
      calls_during w (snd run) = owner_binding owner ++ request :: rest /\
      Forall (fun e => is_request e = false) rest.
Proof.
  intros run [-> | ->].
  - run_bridge; norm_calls;
      first [ left; repeat constructor; fail
            | right; do 3 eexists; split; [reflexivity|]; split;
              [|split; [unfold owner_binding; simpl; reflexivity|]];
              [reflexivity | repeat constructor] ].
  - run_bridge; norm_calls;
      first [ left; repeat constructor; fail
            | right; do 3 eexists; split; [reflexivity|]; split;
              [|split; [unfold owner_binding; simpl; reflexivity|]];
              [reflexivity|];
              repeat (apply Forall_app; split);
              first [apply is_request_wait_calls | repeat constructor] ].
Qed.

Lemma request_follows_owner_binding_witness :
  Forall (fun e => is_request e = false)
    (calls_during new_process
       (snd (msstore_winrt_request_rate_and_review desktop 5 0%nat new_process))) \/
  exists owner request rest,
    GetForegroundWindow desktop = Some owner /\
    is_request request = true /\
    calls_during new_process
      (snd (msstore_winrt_request_rate_and_review desktop 5 0%nat new_process))
    = owner_binding owner ++ request :: rest /\
    Forall (fun e => is_request e = false) rest.
Proof.
  exact (request_follows_owner_binding desktop 5 0%nat None new_process _
           (or_intror eq_refl)).
Defined.

(** X8.  [msstore_winrt_request_rate_and_review] has no timeout of its
    own: while the operation reports [Started] the loop goes on, a turn for
    each test, so that with the operation running for ever no number of
    turns brings the call to an end; the error slot and the allocator are
    as they were. *)
Theorem rating_call_has_no_timeout
    (P : Platform) (t : thread_id) (w : World)
    (owner : HWND) (operation : RateAndReviewOperation) :
  init_apartment P = Value tt ->
  StoreContext_GetDefault P = Value tt ->
  GetForegroundWindow P = Some owner ->
  as_IInitializeWithWindow P = Value tt ->
  RequestRateAndReviewAppAsync P = Value operation ->
  (forall k, op_Status operation k = Started) ->
  forall fuel,
    msstore_winrt_request_rate_and_review P fuel t w
    = (OutOfFuel,
       logged (owner_binding owner ++ EvRequestRateAndReviewAppAsync
                 :: turns_events P fuel 0 ++ [EvAsyncStatus fuel Started]) w).
Proof.
  intros E1 E2 E3 E4 E5 Run fuel.
  unfold_bridge. rewrite E1, E2, E3, E4, E5. simpl.
  unfold wait_for_rate_and_review_result.
  replace fuel with (fuel + 0)%nat at 1 by lia.
  rewrite wait_from_turns by (intros; apply Run).
  rewrite wait_from_starved by apply Run.
  rewrite !logged_logged. reflexivity.
Qed.

Lemma rating_call_has_no_timeout_witness :
  msstore_winrt_request_rate_and_review (rating_platform stuck_operation) 3 0%nat
    new_process
  = (OutOfFuel,
     logged (owner_binding 1%positive ++ EvRequestRateAndReviewAppAsync
               :: turns_events (rating_platform stuck_operation) 3 0
                    ++ [EvAsyncStatus 3 Started]) new_process).
Proof.
  exact (rating_call_has_no_timeout (rating_platform stuck_operation) 0%nat new_process
           1%positive stuck_operation eq_refl eq_refl eq_refl eq_refl eq_refl
           (fun _ => eq_refl) 3%nat).
Defined.



(** X10.  A license fetch that succeeds returns a block that was not in
    use and now holds the JSON text and its terminator (read as a C string
    it is the JSON text when that holds no ['\0']), asks the allocator for
    one byte more than the text is long, clears the calling thread's slot
    and leaves the other threads' slots alone. *)
Theorem license_success_publishes_json
    (P : Platform) (t : thread_id) (w : World)
    (license : StoreAppLicense) (json : string) :
  init_apartment P = Value tt ->
  StoreContext_GetDefault P = Value tt ->
  GetAppLicenseAsync_get P = Value (Some license) ->
  ExtendedJsonData license = Value json ->
  CoTaskMemAlloc_succeeds P = true ->
  exists p w',
    msstore_winrt_get_license_json P t w = (Returns (Some p), w') /\
    task_heap w !! p = None /\
    task_heap w' = <[p := (json ++ String NUL EmptyString)%string]> (task_heap w) /\
    last_error w' t = EmptyString /\
    (forall t', t' <> t -> g_lastError w' !! t' = g_lastError w !! t') /\
    calls_during w w'
    = [ EvInitApartment; EvGetDefault; EvGetAppLicenseAsync; EvExtendedJsonData;
        EvCoTaskMemAlloc (S (String.length json)) (Some p) ] /\
    (contains_NUL json = false ->
     c_str (json ++ String NUL EmptyString) = json).
Proof.
  intros E1 E2 E3 E4 E5. unfold_bridge. rewrite E1, E2, E3. simpl.
  rewrite E4, E5. simpl.
  do 2 eexists. split; [reflexivity|]. simpl.
  split; [apply fresh_block_unused|]. split; [reflexivity|].
  split; [apply last_error_insert|].
  split; [intros t' Ht; apply lookup_insert_ne; congruence|].
  split; [norm_calls; reflexivity|].
  intros H. rewrite c_str_append_NUL. apply c_str_without_NUL, H.
Qed.

Lemma license_success_publishes_json_witness :
  exists p w',
    msstore_winrt_get_license_json desktop 0%nat after_failure = (Returns (Some p), w') /\
    task_heap after_failure !! p = None /\
    task_heap w' = <[p := String.append "{}" (String NUL EmptyString)]> (task_heap after_failure) /\
    last_error w' 0%nat = EmptyString /\
    (forall t', t' <> 0%nat -> g_lastError w' !! t' = g_lastError after_failure !! t') /\
    calls_during after_failure w'
    = [ EvInitApartment; EvGetDefault; EvGetAppLicenseAsync; EvExtendedJsonData;
        EvCoTaskMemAlloc (S (String.length "{}")) (Some p) ] /\
    (contains_NUL "{}" = false ->
     c_str (String.append "{}" (String NUL EmptyString)) = "{}"%string).
Proof.
  apply (license_success_publishes_json desktop 0%nat after_failure
           {| ExtendedJsonData := Value "{}"%string |} "{}"%string); reflexivity.
Defined.

Lemma invoke_task_heap (i : invocation) (w : World) :
  task_heap (snd (invoke i w)) = task_heap w \/
  (exists p body,
     task_heap (snd (invoke i w))
     = <[p := (body ++ String NUL EmptyString)%string]> (task_heap w)) \/
  (exists p, task_heap (snd (invoke i w)) = delete p (task_heap w)).
Proof.
  destruct i as [c P [| |storeId|fuel|ptr]]; unfold invoke; simpl; run_bridge;
    first [ left; reflexivity
          | right; left; do 2 eexists; reflexivity
          | right; right; eexists; reflexivity ].
Qed.

Lemma invoke_heap_terminated (i : invocation) (w : World) :
  heap_terminated w -> heap_terminated (snd (invoke i w)).
Proof.
  intros Inv p block.
  destruct (invoke_task_heap i w) as [-> | [(q & body & ->) | (q & ->)]].
  - apply Inv.
  - destruct (decide (q = p)) as [->|Hq].
    + rewrite lookup_insert_eq. intros [= <-]. exists body. reflexivity.
    + rewrite lookup_insert_ne by exact Hq. apply Inv.
  - intros H. apply lookup_delete_Some in H as [_ H]. eapply Inv, H.
Qed.

(** X11.  Every block the interface hands out is a C string: if the live
    blocks of the COM task allocator all end in the terminator, they still
    do after any sequence of calls of the exported functions by any
    threads. *)
Theorem buffers_stay_terminated (s : list invocation) (w : World) :
  heap_terminated w -> heap_terminated (run_schedule s w).
Proof.
  revert w. induction s as [|i rest IH]; intros w Inv; [exact Inv|].
  simpl. apply IH, invoke_heap_terminated, Inv.
Qed.

Lemma buffers_stay_terminated_witness :
  heap_terminated (run_schedule overlapping_failures new_process).
Proof.
  apply (buffers_stay_terminated overlapping_failures new_process).
  intros p block H. unfold new_process in H. simpl in H.
  rewrite lookup_empty in H. discriminate H.
Defined.

Lemma pump_events_peeked (queue : list MSG) :
  peeked (pump_events queue) = queue /\ translated (pump_events queue) = queue.
Proof.
  induction queue as [|m rest [IH1 IH2]]; [split; reflexivity|].
  split.
  - change (peeked (pump_events (m :: rest))) with (m :: peeked (pump_events rest)).
    rewrite IH1. reflexivity.
  - change (translated (pump_events (m :: rest)))
      with (m :: translated (pump_events rest)).
    rewrite IH2. reflexivity.
Qed.

Lemma wait_calls_messages (P : Platform) (operation : RateAndReviewOperation)
    (fuel : nat) : forall k,
  peeked (wait_calls P operation fuel k) = dispatched (wait_calls P operation fuel k) /\
  translated (wait_calls P operation fuel k)
  = dispatched (wait_calls P operation fuel k).
Proof.
  induction fuel as [|fuel IH]; intros k; simpl;
    destruct (op_Status operation k); try (split; reflexivity).
  destruct (IH (S k)) as [IH1 IH2].
  destruct (pump_events_peeked (PeekMessageW P k)) as [Q1 Q2].
  pose proof (dispatched_pump_events (PeekMessageW P k)) as Q3.
  unfold turn_events, peeked, translated, dispatched in *. simpl.
  rewrite <- !app_assoc, !omap_app. simpl.
  rewrite Q1, Q2, Q3, IH1, IH2. split; reflexivity.
Qed.

Lemma calls_during_logged (evs : list event) (w : World) :
  calls_during w (logged evs w) = evs.
Proof. unfold calls_during, logged; simpl. apply drop_app_length. Qed.

(** X12.  The pump loop drops no message and touches nothing else:
    however it ends, every message it took from the queue was translated
    and dispatched, in the order it was taken, and the error slots and the
    allocator are as they were. *)
Theorem pump_never_drops_a_message
    (P : Platform) (fuel : nat) (operation : RateAndReviewOperation) (w : World) :
  g_lastError (snd (wait_for_rate_and_review_result P fuel operation w)) = g_lastError w /\
  task_heap (snd (wait_for_rate_and_review_result P fuel operation w)) = task_heap w /\
  translated (calls_during w (snd (wait_for_rate_and_review_result P fuel operation w)))
  = peeked (calls_during w (snd (wait_for_rate_and_review_result P fuel operation w))) /\
  dispatched (calls_during w (snd (wait_for_rate_and_review_result P fuel operation w)))
  = peeked (calls_during w (snd (wait_for_rate_and_review_result P fuel operation w))).
Proof.
  unfold wait_for_rate_and_review_result. rewrite wait_from_run. simpl.
  rewrite calls_during_logged.
  destruct (wait_calls_messages P operation fuel 0) as [H1 H2].
  repeat split; congruence.
Qed.

Lemma run_schedule_other_threads (t : thread_id) (s : list invocation) : forall w,
  Forall (fun i => caller i <> t) s ->
  g_lastError (run_schedule s w) !! t = g_lastError w !! t.
Proof.
  induction s as [|i rest IH]; intros w H; [reflexivity|].
  apply Forall_cons in H as [Hi Hrest]. simpl.
  rewrite IH by exact Hrest. apply invoke_other_slots, Hi.
Qed.

(** X13.  A thread's error message waits for it: whatever calls other
    threads make in between, [msstore_winrt_get_last_error] on thread [t]
    then returns a block that holds the message [t]'s slot held before
    them. *)
Theorem error_survives_other_threads
    (P : Platform) (t : thread_id) (others : list invocation) (w : World) :
  Forall (fun i => caller i <> t) others ->
  CoTaskMemAlloc_succeeds P = true ->
  exists p w',
    msstore_winrt_get_last_error P t (run_schedule others w) = (Returns (Some p), w') /\
    task_heap w' !! p = Some (last_error w t ++ String NUL EmptyString)%string /\
    last_error w' t = last_error w t.
Proof.
  intros Others Memory.
  pose proof (run_schedule_other_threads t others w Others) as Same.
  unfold_bridge. rewrite Memory. do 2 eexists.
  split; [reflexivity|]. unfold last_error; simpl. rewrite Same.
  split; [apply lookup_insert_eq | reflexivity].
Qed.

Lemma error_survives_other_threads_witness :
  exists p w',
    msstore_winrt_get_last_error desktop 0%nat
      (run_schedule overlapping_failures after_failure) = (Returns (Some p), w') /\
    task_heap w' !! p
    = Some (last_error after_failure 0%nat ++ String NUL EmptyString)%string /\
    last_error w' 0%nat = last_error after_failure 0%nat.
Proof.
  apply (error_survives_other_threads desktop 0%nat overlapping_failures after_failure).
  - repeat constructor; discriminate.
  - reflexivity.
Defined.


